(** * dalmatian: workspace manager (wmanager.py)

    A shallow embedding of the three retrospective analyses of
    [WorkspaceManager]: [get_entity_status] (latest submission per entity),
    [patch_attributes] (recovery of unwritten outputs) and [get_stats]
    (runtime, preemption and cost statistics per task).

    Python exceptions are values of [exn] carried by the [result] monad;
    dictionaries are [gmap]s where only the key/value relation matters and
    insertion-ordered association lists where the iteration order is
    observable; floating-point seconds and hours are rationals. *)

From Stdlib Require Import ZArith QArith List String Ascii Bool Lia Lqa.
From stdpp Require Import base option list gmap strings.

Local Open Scope string_scope.

(** ** Exceptions and the error monad *)

Inductive exn : Type :=
  | AssertionError
  | KeyError
  | IndexError
  | AttributeError
  | UnboundLocalError
  | ValueError
  | TypeError
  | ConnectionError.

Inductive result (A : Type) : Type :=
  | Ok (a : A)
  | Raise (e : exn).
Arguments Ok {A} a.
Arguments Raise {A} e.

#[global] Instance result_ret : MRet result := fun _ a => Ok a.
#[global] Instance result_bind : MBind result := fun _ _ f m =>
  match m with
  | Ok a => f a
  | Raise e => Raise e
  end.

(** [assert c] of Python. *)
Definition py_assert (c : bool) : result unit :=
  if c then Ok tt else Raise AssertionError.

(** A [requests.Response]: the HTTP status and what [.json()] parses. *)
Record response (A : Type) : Type := Response {
  status_code : Z;
  json : A;
}.
Arguments Response {A} _ _.
Arguments status_code {A} _.
Arguments json {A} _.

(** ** Strings *)

(** [sub in s] for Python strings. *)
Fixpoint contains (sub s : string) : bool :=
  match s with
  | EmptyString => String.prefix sub EmptyString
  | String _ s' => String.prefix sub s || contains sub s'
  end.

(** [s.rsplit(sep)[-1]] and [s.split(sep)[-1]] for a one-character separator:
    what follows the last occurrence of [sep], all of [s] when there is
    none. [acc] is the piece read since the last separator. *)
Fixpoint last_piece_from (sep : ascii) (acc s : string) : string :=
  match s with
  | EmptyString => acc
  | String c s' =>
      if Ascii.eqb c sep then last_piece_from sep EmptyString s'
      else last_piece_from sep (acc ++ String c EmptyString) s'
  end.

Definition last_piece (sep : ascii) (s : string) : string :=
  last_piece_from sep EmptyString s.

(** ** Rationals *)

Definition Qltb (x y : Q) : bool := negb (Qle_bool y x).

(** [np.sum] of a list. *)
Definition Qsum (l : list Q) : Q := foldr Qplus 0%Q l.

(** [np.max] of a list with head [x]. *)
Definition Qmax_list (x : Q) (l : list Q) : Q :=
  foldl (fun m y => if Qltb m y then y else m) x l.

Lemma Qltb_lt (x y : Q) : Qltb x y = true ↔ (x < y)%Q.
Proof.
  unfold Qltb. rewrite negb_true_iff. split.
  - intros H. apply Qnot_le_lt. intros Hle.
    apply Qle_bool_iff in Hle. congruence.
  - intros H. destruct (Qle_bool y x) eqn:E; [|done].
    apply Qle_bool_iff in E. exfalso. by apply (Qlt_not_le x y).
Qed.

Lemma Qltb_ge (x y : Q) : Qltb x y = false ↔ (y <= x)%Q.
Proof.
  unfold Qltb. rewrite negb_false_iff. apply Qle_bool_iff.
Qed.

(** ** Facts on the string operations *)

Lemma append_cons (x : ascii) (a b : string) :
  String x a ++ b = String x (a ++ b).
Proof. reflexivity. Qed.

Lemma append_nil_l (b : string) : "" ++ b = b.
Proof. reflexivity. Qed.

Lemma append_assoc' (a b c : string) : (a ++ b) ++ c = a ++ (b ++ c).
Proof.
  induction a as [|x a IH]; [done|]. by rewrite !append_cons, IH.
Qed.

Lemma append_nil_r' (a : string) : a ++ "" = a.
Proof. induction a as [|x a IH]; [done|]. by rewrite append_cons, IH. Qed.

Lemma prefix_spec (p s : string) :
  String.prefix p s = true ↔ ∃ b, s = p ++ b.
Proof.
  revert s. induction p as [|x p IH]; intros s.
  - split; [intros _; by exists s|]. intros _. by destruct s.
  - destruct s as [|y s]; cbn [String.prefix].
    + split; [done|]. intros [b Hb]. discriminate.
    + destruct (ascii_dec x y) as [->|Hne].
      * rewrite IH. split; intros [b Hb]; exists b.
        { by rewrite append_cons, Hb. }
        rewrite append_cons in Hb. by injection Hb.
      * split; [done|]. intros [b Hb]. rewrite append_cons in Hb.
        injection Hb as Hxy _. by symmetry in Hxy.
Qed.

(** [sub in s] holds when [s] is some text, [sub], some text. *)
Lemma contains_spec (sub s : string) :
  contains sub s = true ↔ ∃ a b, s = a ++ sub ++ b.
Proof.
  induction s as [|y s IH]; cbn [contains].
  - rewrite prefix_spec. split.
    + intros [b Hb]. by exists "", b.
    + intros (a & b & Hab). destruct a; [by exists b|discriminate].
  - rewrite orb_true_iff, IH, prefix_spec. split.
    + intros [[b Hb]|(a & b & Hab)]; [by exists "", b|].
      exists (String y a), b. by rewrite append_cons, Hab.
    + intros (a & b & Hab). destruct a as [|x a]; [left; by exists b|].
      right. rewrite append_cons in Hab. injection Hab as _ Hab.
      by exists a, b.
Qed.

Lemma contains_char_cons (sep c : ascii) (s : string) :
  contains (String sep "") (String c s) = false →
  Ascii.eqb c sep = false ∧ contains (String sep "") s = false.
Proof.
  cbn [contains String.prefix]. intros H.
  apply orb_false_iff in H as [Hp Hs]. split; [|done].
  destruct (ascii_dec sep c) as [->|Hne]; [by destruct s|].
  apply Ascii.eqb_neq. congruence.
Qed.

Lemma last_piece_from_whole (sep : ascii) (acc s : string) :
  contains (String sep "") s = false →
  last_piece_from sep acc s = acc ++ s.
Proof.
  revert acc. induction s as [|c s IH]; intros acc Hs; cbn [last_piece_from].
  - by rewrite append_nil_r'.
  - apply contains_char_cons in Hs as [-> Hs]. rewrite IH by done.
    apply append_assoc'.
Qed.

Lemma last_piece_from_after (sep : ascii) (acc a b : string) :
  contains (String sep "") b = false →
  last_piece_from sep acc (a ++ String sep b) = b.
Proof.
  intros Hb. revert acc. induction a as [|c a IH]; intros acc.
  - rewrite append_nil_l. cbn [last_piece_from]. rewrite Ascii.eqb_refl.
    by rewrite last_piece_from_whole.
  - rewrite append_cons. cbn [last_piece_from].
    destruct (Ascii.eqb c sep); apply IH.
Qed.

(** * Status of the latest submission per entity *)

Module Status.

(** An item of the submission list. [submissionDate] holds
    [datetime.timestamp(iso8601.parse_date(s['submissionDate']))], seconds
    since the epoch. *)
Record submission : Type := Submission {
  submissionId : string;
  submissionEntityType : string;
  submissionDate : Q;
  methodConfigurationName : string;
}.

(** A workflow of a submission detail; [workflowId] is absent until the
    workflow has been started. *)
Record workflow : Type := Workflow {
  workflowEntityName : string;
  wstatus : string;
  workflowId : option string;
}.

Record submission_detail : Type := SubmissionDetail {
  workflows : list workflow;
}.

(** A value of [entity_dict]. *)
Record entity_record : Type := EntityRecord {
  status : string;
  timestamp : Q;
  submission_id : string;
  configuration : string;
  workflow_id : string;
}.

(** *** A workspace with two submissions for sample S1 *)

Definition wf_failed : workflow := Workflow "S1" "Failed" (Some "wf-1").
Definition wf_succeeded : workflow := Workflow "S1" "Succeeded" (Some "wf-2").

Definition sub_first (ts : Q) : submission :=
  Submission "sub-1" "sample" ts "wgs_pipeline".
Definition sub_second (ts : Q) : submission :=
  Submission "sub-2" "sample" ts "wgs_pipeline".

(** The submission list, the first submission made at [t1], the second at
    [t2]. *)
Definition two_submissions (t1 t2 : Q) : response (list submission) :=
  Response 200 [sub_first t1; sub_second t2].

(** The details; the fetch of the second one is answered with [code]. *)
Definition two_details (code : Z) (sid : string) : response submission_detail :=
  if String.eqb sid "sub-1" then Response 200 (SubmissionDetail [wf_failed])
  else Response code (SubmissionDetail [wf_succeeded]).

Section get_entity_status.

(** The remote API, read only here. *)
Variable api_list_submissions : response (list submission).
Variable api_get_submission : string → response submission_detail.

Definition get_submission (sid : string) : result submission_detail :=
  let r := api_get_submission sid in
  _ ← py_assert (status_code r =? 200)%Z;
  Ok (json r).

Definition list_submissions (config : option string)
  : result (list submission) :=
  let submissions := api_list_submissions in
  _ ← py_assert (status_code submissions =? 200)%Z;
  let submissions := json submissions in
  Ok match config with
     | Some c =>
         filter (λ s, contains c (methodConfigurationName s) = true)
                submissions
     | None => submissions
     end.

(** The record lines 463-472 build for workflow [w] of submission [s]. *)
Definition new_record (s : submission) (w : workflow) : entity_record :=
  {| status := wstatus w;
     timestamp := submissionDate s;
     submission_id := submissionId s;
     configuration := methodConfigurationName s;
     workflow_id := default "NA" (workflowId w) |}.

(** The test of line 462. *)
Definition replaces (entity_dict : gmap string entity_record)
    (entity_id : string) (ts : Q) : bool :=
  match entity_dict !! entity_id with
  | None => true
  | Some r => Qltb (timestamp r) ts
  end.

(** One turn of the inner loop, lines 461-472. *)
Definition record_workflow (entity_dict : gmap string entity_record)
    (sw : submission * workflow) : gmap string entity_record :=
  let entity_id := workflowEntityName sw.2 in
  if replaces entity_dict entity_id (submissionDate sw.1)
  then <[entity_id := new_record sw.1 sw.2]> entity_dict
  else entity_dict.

(** The outer loop, lines 451-472. *)
Fixpoint scan_submissions (etype : string) (submissions : list submission)
    (entity_dict : gmap string entity_record)
  : result (gmap string entity_record) :=
  match submissions with
  | [] => Ok entity_dict
  | s :: rest =>
      if negb (String.eqb (submissionEntityType s) etype)
      then scan_submissions etype rest entity_dict
      else
        r ← get_submission (submissionId s);
        scan_submissions etype rest
          (foldl record_workflow entity_dict
                 (map (λ w, (s, w)) (workflows r)))
  end.

(** Lines 474-477: the frame has one row per key of [entity_dict];
    selecting the five columns of a frame without rows or columns is a
    [KeyError]. *)
Definition get_entity_status (etype : string) (config : option string)
  : result (gmap string entity_record) :=
  submissions ← list_submissions config;
  entity_dict ← scan_submissions etype submissions ∅;
  if decide (entity_dict = ∅) then Raise KeyError else Ok entity_dict.

(** The workflows the scan visits, in the order it visits them, each with
    the submission it belongs to. *)
Definition scanned (etype : string) (submissions : list submission)
  : list (submission * workflow) :=
  flat_map
    (λ s, if String.eqb (submissionEntityType s) etype
          then map (λ w, (s, w)) (workflows (json (api_get_submission (submissionId s))))
          else [])
    submissions.

(** [s] is a submission of the list whose entity type is [etype] and [w]
    is one of the workflows of its detail. *)
Definition visits (etype : string) (submissions : list submission)
    (s : submission) (w : workflow) : Prop :=
  s ∈ submissions ∧ submissionEntityType s = etype ∧
  w ∈ workflows (json (api_get_submission (submissionId s))).

(** Every detail fetch the scan makes is answered with 200. *)
Definition fetches_succeed (etype : string)
    (submissions : list submission) : Prop :=
  ∀ s, s ∈ submissions → submissionEntityType s = etype →
       status_code (api_get_submission (submissionId s)) = 200%Z.

Lemma elem_of_scanned etype submissions s w :
  (s, w) ∈ scanned etype submissions ↔ visits etype submissions s w.
Proof.
  unfold scanned, visits. rewrite list_elem_of_In, in_flat_map.
  split.
  - intros (s' & Hs' & Hin). destruct (String.eqb_spec (submissionEntityType s') etype) as [Heq|Hne].
    + apply in_map_iff in Hin as (w' & [= <- <-] & Hw).
      rewrite <- !list_elem_of_In in *. done.
    + destruct Hin.
  - intros (Hs & Ht & Hw). exists s. rewrite <- list_elem_of_In. split; [done|].
    rewrite <- Ht, String.eqb_refl. apply in_map_iff. exists w.
    rewrite <- list_elem_of_In. done.
Qed.

Lemma scan_submissions_ok etype submissions entity_dict :
  fetches_succeed etype submissions →
  scan_submissions etype submissions entity_dict
  = Ok (foldl record_workflow entity_dict (scanned etype submissions)).
Proof.
  revert entity_dict. induction submissions as [|s rest IH]; intros d Hok; [done|].
  assert (Hrest : fetches_succeed etype rest).
  { intros s' Hs'. apply Hok. by right. }
  cbn [scan_submissions scanned flat_map].
  destruct (String.eqb_spec (submissionEntityType s) etype) as [Heq|Hne]; cbn [negb].
  - unfold get_submission. rewrite (Hok s); [|by left|done].
    cbn. rewrite foldl_app. by apply IH.
  - cbn. by apply IH.
Qed.

Lemma scan_submissions_fails etype submissions entity_dict s :
  s ∈ submissions → submissionEntityType s = etype →
  status_code (api_get_submission (submissionId s)) ≠ 200%Z →
  scan_submissions etype submissions entity_dict = Raise AssertionError.
Proof.
  intros Hin Ht Hbad. revert entity_dict.
  induction submissions as [|s0 rest IH]; intros d; [by apply elem_of_nil in Hin|].
  cbn [scan_submissions].
  destruct (negb (String.eqb (submissionEntityType s0) etype)) eqn:Hty.
  - apply elem_of_cons in Hin as [->|Hin]; [|by apply IH].
    rewrite Ht, String.eqb_refl in Hty. discriminate.
  - unfold get_submission.
    destruct (Z.eqb_spec (status_code (api_get_submission (submissionId s0))) 200) as [H200|H200].
    + cbn. apply elem_of_cons in Hin as [->|Hin]; [done|by apply IH].
    + done.
Qed.

Lemma record_workflow_other entity_dict sw e :
  workflowEntityName sw.2 ≠ e →
  record_workflow entity_dict sw !! e = entity_dict !! e.
Proof.
  intros Hne. unfold record_workflow.
  destruct (replaces _ _ _); [|done]. by rewrite lookup_insert_ne.
Qed.

Lemma record_workflow_absent entity_dict sw :
  entity_dict !! workflowEntityName sw.2 = None →
  record_workflow entity_dict sw !! workflowEntityName sw.2
  = Some (new_record sw.1 sw.2).
Proof.
  intros Hnone. unfold record_workflow, replaces. rewrite Hnone.
  by rewrite lookup_insert_eq.
Qed.

Lemma record_workflow_newer entity_dict sw old :
  entity_dict !! workflowEntityName sw.2 = Some old →
  (timestamp old < submissionDate sw.1)%Q →
  record_workflow entity_dict sw !! workflowEntityName sw.2
  = Some (new_record sw.1 sw.2).
Proof.
  intros Hold Hlt. unfold record_workflow, replaces. rewrite Hold.
  apply Qltb_lt in Hlt. rewrite Hlt. by rewrite lookup_insert_eq.
Qed.

Lemma record_workflow_not_newer entity_dict sw old :
  entity_dict !! workflowEntityName sw.2 = Some old →
  (submissionDate sw.1 <= timestamp old)%Q →
  record_workflow entity_dict sw = entity_dict.
Proof.
  intros Hold Hle. unfold record_workflow, replaces. rewrite Hold.
  apply Qltb_ge in Hle. by rewrite Hle.
Qed.

Lemma scan_untouched evs entity_dict e :
  (∀ sw, sw ∈ evs → workflowEntityName sw.2 ≠ e) →
  foldl record_workflow entity_dict evs !! e = entity_dict !! e.
Proof.
  revert entity_dict. induction evs as [|sw evs IH]; intros d Hne; [done|].
  cbn. rewrite IH.
  - apply record_workflow_other, Hne. by left.
  - intros sw' Hin. apply Hne. by right.
Qed.

(** After the scan of [evs] from a dictionary without [e], the record of
    [e] is the one built for a workflow of [evs] whose submission is not
    older than that of any workflow of [evs] for [e]. *)
Lemma scan_latest e evs entity_dict :
  entity_dict !! e = None →
  (∃ sw, sw ∈ evs ∧ workflowEntityName sw.2 = e) →
  ∃ sw, sw ∈ evs ∧ workflowEntityName sw.2 = e ∧
        foldl record_workflow entity_dict evs !! e
        = Some (new_record sw.1 sw.2) ∧
        ∀ sw', sw' ∈ evs → workflowEntityName sw'.2 = e →
               (submissionDate sw'.1 <= submissionDate sw.1)%Q.
Proof.
  intros Hnone. induction evs as [|sw evs IH] using rev_ind.
  { intros (sw & Hin & _). by apply elem_of_nil in Hin. }
  intros Hany. rewrite foldl_app. cbn [foldl].
  set (d := foldl record_workflow entity_dict evs) in *.
  destruct (decide (workflowEntityName sw.2 = e)) as [He|He].
  - destruct (decide (Exists (λ sw0, workflowEntityName sw0.2 = e) evs))
      as [Hex|Hnex]; rewrite Exists_exists in *.
    + destruct (IH Hex) as (sw1 & Hin1 & He1 & Hrec & Hmax).
      destruct (Qlt_le_dec (submissionDate sw1.1) (submissionDate sw.1))
        as [Hlt|Hle].
      * exists sw. split; [apply elem_of_app; right; by left|].
        split; [done|]. split.
        { subst e. by apply (record_workflow_newer _ _ (new_record sw1.1 sw1.2)). }
        intros sw' Hin' He'. apply elem_of_app in Hin' as [Hin'|Hin'].
        { apply Qle_trans with (submissionDate sw1.1); [by apply Hmax|].
          by apply Qlt_le_weak. }
        apply list_elem_of_singleton in Hin' as ->. apply Qle_refl.
      * exists sw1. split; [apply elem_of_app; by left|].
        split; [done|]. split.
        { subst e.
          by rewrite (record_workflow_not_newer _ _ (new_record sw1.1 sw1.2)). }
        intros sw' Hin' He'. apply elem_of_app in Hin' as [Hin'|Hin'].
        { by apply Hmax. }
        by apply list_elem_of_singleton in Hin' as ->.
    + assert (Hd : d !! e = None).
      { unfold d. rewrite scan_untouched; [done|].
        intros sw0 Hin0 He0. apply Hnex. by exists sw0. }
      exists sw. split; [apply elem_of_app; right; by left|].
      split; [done|]. split.
      { subst e. by apply record_workflow_absent. }
      intros sw' Hin' He'. apply elem_of_app in Hin' as [Hin'|Hin'].
      { exfalso. apply Hnex. by exists sw'. }
      apply list_elem_of_singleton in Hin' as ->. apply Qle_refl.
  - assert (Hex : ∃ sw0, sw0 ∈ evs ∧ workflowEntityName sw0.2 = e).
    { destruct Hany as (sw0 & Hin0 & He0).
      apply elem_of_app in Hin0 as [Hin0|Hin0]; [by exists sw0|].
      apply list_elem_of_singleton in Hin0 as ->. done. }
    destruct (IH Hex) as (sw1 & Hin1 & He1 & Hrec & Hmax).
    exists sw1. split; [apply elem_of_app; by left|]. split; [done|]. split.
    { by rewrite record_workflow_other. }
    intros sw' Hin' He'. apply elem_of_app in Hin' as [Hin'|Hin'].
    { by apply Hmax. }
    apply list_elem_of_singleton in Hin' as ->. done.
Qed.

Lemma scan_older e T evs entity_dict :
  match entity_dict !! e with
  | None => True
  | Some r => (timestamp r < T)%Q
  end →
  (∀ sw, sw ∈ evs → workflowEntityName sw.2 = e →
         (submissionDate sw.1 < T)%Q) →
  match foldl record_workflow entity_dict evs !! e with
  | None => True
  | Some r => (timestamp r < T)%Q
  end.
Proof.
  revert entity_dict. induction evs as [|sw evs IH]; intros d Hd Hlt; [done|].
  cbn [foldl]. apply IH.
  - destruct (decide (workflowEntityName sw.2 = e)) as [He|He].
    + unfold record_workflow. destruct (replaces _ _ _); [|done].
      rewrite He, lookup_insert_eq. cbn. apply Hlt; [by left|done].
    + by rewrite record_workflow_other.
  - intros sw' Hin. apply Hlt. by right.
Qed.

Lemma scan_keeps e r evs entity_dict :
  entity_dict !! e = Some r →
  (∀ sw, sw ∈ evs → workflowEntityName sw.2 = e →
         (submissionDate sw.1 <= timestamp r)%Q) →
  foldl record_workflow entity_dict evs !! e = Some r.
Proof.
  revert entity_dict. induction evs as [|sw evs IH]; intros d Hd Hle; [done|].
  cbn [foldl]. apply IH.
  - destruct (decide (workflowEntityName sw.2 = e)) as [He|He].
    + rewrite (record_workflow_not_newer _ _ r); [done|by rewrite He|].
      apply Hle; [by left|done].
    + by rewrite record_workflow_other.
  - intros sw' Hin. apply Hle. by right.
Qed.

Lemma get_entity_status_ok etype config submissions e r :
  list_submissions config = Ok submissions →
  fetches_succeed etype submissions →
  foldl record_workflow ∅ (scanned etype submissions) !! e = Some r →
  get_entity_status etype config
  = Ok (foldl record_workflow ∅ (scanned etype submissions)).
Proof.
  intros Hlist Hok Hr. unfold get_entity_status. rewrite Hlist. cbn.
  rewrite scan_submissions_ok by done. cbn.
  destruct (decide _) as [Hempty|]; [|done].
  rewrite Hempty, lookup_empty in Hr. discriminate.
Qed.

(** C3. When the submission list and every detail fetch succeed, an entity
    named by a workflow of some submission of the requested type has one
    record in the result; that record was built from such a workflow and
    no such workflow has a later submission timestamp. During the scan a
    record that exists is replaced only by a strictly later timestamp. *)
Theorem get_entity_status_latest etype config submissions e :
  list_submissions config = Ok submissions →
  fetches_succeed etype submissions →
  (∃ s w, visits etype submissions s w ∧ workflowEntityName w = e) →
  ∃ entity_dict r,
    get_entity_status etype config = Ok entity_dict ∧
    entity_dict !! e = Some r ∧
    (∃ s w, visits etype submissions s w ∧ workflowEntityName w = e ∧
            r = new_record s w) ∧
    (∀ s w, visits etype submissions s w → workflowEntityName w = e →
            (submissionDate s <= timestamp r)%Q) ∧
    (∀ d sw old, d !! workflowEntityName sw.2 = Some old →
                 record_workflow d sw ≠ d →
                 (timestamp old < submissionDate sw.1)%Q).
Proof.
  intros Hlist Hok (s0 & w0 & Hv0 & He0).
  destruct (scan_latest e (scanned etype submissions) ∅) as
    (sw & Hin & He & Hrec & Hmax).
  { apply lookup_empty. }
  { exists (s0, w0). split; [by apply elem_of_scanned|done]. }
  exists (foldl record_workflow ∅ (scanned etype submissions)),
         (new_record sw.1 sw.2).
  split; [by eapply get_entity_status_ok|]. split; [done|]. split; [|split].
  - exists sw.1, sw.2. split; [|done]. apply elem_of_scanned. by destruct sw.
  - intros s w Hv He'. apply (Hmax (s, w)); [by apply elem_of_scanned|done].
  - intros d sw' old Hold Hchanged.
    destruct (Qlt_le_dec (timestamp old) (submissionDate sw'.1)) as [|Hle];
      [done|].
    exfalso. apply Hchanged. by eapply record_workflow_not_newer.
Qed.

(** C5, as the code has it. The record kept for an entity is the one of
    the first workflow, in scan order, whose submission timestamp is not
    exceeded: every earlier workflow of the entity is strictly older and
    no later one is newer. A later submission with an equal timestamp
    does not replace it. *)
Theorem equal_timestamps_first_seen_wins etype config submissions
    (pre post : list (submission * workflow)) s w :
  list_submissions config = Ok submissions →
  fetches_succeed etype submissions →
  scanned etype submissions = (pre ++ (s, w) :: post)%list →
  (∀ sw, sw ∈ pre → workflowEntityName sw.2 = workflowEntityName w →
         (submissionDate sw.1 < submissionDate s)%Q) →
  (∀ sw, sw ∈ post → workflowEntityName sw.2 = workflowEntityName w →
         (submissionDate sw.1 <= submissionDate s)%Q) →
  ∃ entity_dict,
    get_entity_status etype config = Ok entity_dict ∧
    entity_dict !! workflowEntityName w = Some (new_record s w).
Proof.
  intros Hlist Hok Hsplit Hpre Hpost.
  assert (Hr : foldl record_workflow ∅ (scanned etype submissions)
               !! workflowEntityName w = Some (new_record s w)).
  { rewrite Hsplit, foldl_app. cbn [foldl].
    apply scan_keeps; [|done].
    pose proof (scan_older (workflowEntityName w) (submissionDate s) pre ∅)
      as Hold.
    rewrite lookup_empty in Hold. specialize (Hold I Hpre).
    destruct (foldl record_workflow ∅ pre !! workflowEntityName w)
      as [old|] eqn:Hlook.
    - by apply (record_workflow_newer _ (s, w) old).
    - by apply (record_workflow_absent _ (s, w)). }
  eexists. split; [by eapply get_entity_status_ok|done].
Qed.

(** C8. A detail fetch answered with anything but 200, for a submission of
    the requested type, makes the whole call raise: no table is
    returned. *)
Theorem submission_fetch_failure_aborts etype config submissions s :
  list_submissions config = Ok submissions →
  s ∈ submissions →
  submissionEntityType s = etype →
  status_code (api_get_submission (submissionId s)) ≠ 200%Z →
  get_entity_status etype config = Raise AssertionError.
Proof.
  intros Hlist Hin Ht Hbad. unfold get_entity_status. rewrite Hlist. cbn.
  by rewrite (scan_submissions_fails etype submissions ∅ s).
Qed.

(** ** Further properties of the status table *)

(** X1. When the list request is answered with 200, [list_submissions] gives
    the submissions of the answer whose configuration name has [config]
    inside it, in the order of the answer; without [config], all of them. *)
Theorem list_submissions_filter config :
  status_code api_list_submissions = 200%Z →
  ∃ l, list_submissions config = Ok l ∧
       l `sublist_of` json api_list_submissions ∧
       ∀ s, s ∈ l ↔
            s ∈ json api_list_submissions ∧
            match config with
            | Some c => ∃ a b, methodConfigurationName s = a ++ c ++ b
            | None => True
            end.
Proof.
  intros H200. unfold list_submissions. rewrite H200. cbn.
  destruct config as [c|]; eexists; (split; [done|]); split.
  - apply sublist_filter.
  - intros s. rewrite list_elem_of_filter, contains_spec.
    split; intros [? ?]; by split.
  - done.
  - intros s. split; [done|by intros [? _]].
Qed.

Lemma scanned_other_type etype submissions :
  (∀ s, s ∈ submissions → submissionEntityType s ≠ etype) →
  scanned etype submissions = [].
Proof.
  induction submissions as [|s rest IH]; intros Hne; [done|].
  cbn [scanned flat_map].
  destruct (String.eqb_spec (submissionEntityType s) etype) as [Heq|_].
  - destruct (Hne s); [by left|done].
  - cbn. apply IH. intros s' Hs'. apply Hne. by right.
Qed.

(** X2. The entities of the table are the entities named by the workflows
    of the submissions of the requested type, no more and no less. *)
Theorem get_entity_status_keys etype config submissions entity_dict :
  list_submissions config = Ok submissions →
  fetches_succeed etype submissions →
  get_entity_status etype config = Ok entity_dict →
  ∀ e, is_Some (entity_dict !! e) ↔
       ∃ s w, visits etype submissions s w ∧ workflowEntityName w = e.
Proof.
  intros Hlist Hok. unfold get_entity_status. rewrite Hlist. cbn.
  rewrite scan_submissions_ok by done. cbn.
  destruct (decide _) as [|_]; [done|]. intros [= <-] e.
  destruct (decide (Exists (λ sw, workflowEntityName sw.2 = e)
                           (scanned etype submissions))) as [Hex|Hnex];
    rewrite Exists_exists in *.
  - destruct (scan_latest e (scanned etype submissions) ∅)
      as (sw & _ & _ & -> & _); [apply lookup_empty|done|].
    split; [|by eexists]. intros _. destruct Hex as ([s w] & Hin & He).
    exists s, w. split; [by apply elem_of_scanned|done].
  - rewrite scan_untouched, lookup_empty.
    + split; [by intros [? ?]|]. intros (s & w & Hv & He). destruct Hnex.
      exists (s, w). split; [by apply elem_of_scanned|done].
    + intros sw Hin He. apply Hnex. by exists sw.
Qed.

(** X3. Submissions of another entity type are passed over without a
    request for their detail; when the list holds no submission of the
    requested type the call ends with a [KeyError] (the five columns are
    selected in a frame that has none), not with an empty table. *)
Theorem no_submission_of_type_raises etype config submissions :
  list_submissions config = Ok submissions →
  (∀ s, s ∈ submissions → submissionEntityType s ≠ etype) →
  get_entity_status etype config = Raise KeyError.
Proof.
  intros Hlist Hne. unfold get_entity_status. rewrite Hlist. cbn.
  rewrite scan_submissions_ok.
  - rewrite scanned_other_type by done. cbn. by rewrite decide_True.
  - intros s Hs Ht. by destruct (Hne s).
Qed.

End get_entity_status.

Lemma two_submissions_fetched t1 t2 :
  fetches_succeed (two_details 200) "sample" [sub_first t1; sub_second t2].
Proof.
  intros s Hs _. apply list_elem_of_In in Hs.
  destruct Hs as [<-|[<-|[]]]; reflexivity.
Qed.

Lemma get_entity_status_latest_witness :
  ∃ entity_dict r,
    get_entity_status (two_submissions 100 200) (two_details 200)
                      "sample" (Some "wgs") = Ok entity_dict ∧
    entity_dict !! "S1" = Some r ∧
    (∃ s w, visits (two_details 200) "sample"
                   [sub_first 100; sub_second 200] s w ∧
            workflowEntityName w = "S1" ∧ r = new_record s w) ∧
    (∀ s w, visits (two_details 200) "sample"
                   [sub_first 100; sub_second 200] s w →
            workflowEntityName w = "S1" →
            (submissionDate s <= timestamp r)%Q) ∧
    (∀ d sw old, d !! workflowEntityName sw.2 = Some old →
                 record_workflow d sw ≠ d →
                 (timestamp old < submissionDate sw.1)%Q).
Proof.
  apply (get_entity_status_latest (two_submissions 100 200) (two_details 200)
           "sample" (Some "wgs") [sub_first 100; sub_second 200] "S1").
  - reflexivity.
  - apply two_submissions_fetched.
  - exists (sub_first 100), wf_failed. split; [|reflexivity].
    split; [by left|]. split; [reflexivity|]. by left.
Defined.

(** C5, as stated, fails: two submissions of equal timestamp for S1, and the
    record kept is that of the one listed first, not of the one processed
    last. *)
Lemma last_seen_wins_fails :
  ∃ entity_dict,
    get_entity_status (two_submissions 100 100) (two_details 200)
                      "sample" None = Ok entity_dict ∧
    (submissionDate (sub_first 100) == submissionDate (sub_second 100))%Q ∧
    entity_dict !! "S1" = Some (new_record (sub_first 100) wf_failed) ∧
    entity_dict !! "S1" ≠ Some (new_record (sub_second 100) wf_succeeded).
Proof.
  eexists. split; [vm_compute; reflexivity|].
  split; [reflexivity|]. split; [reflexivity|].
  vm_compute. discriminate.
Qed.

Lemma equal_timestamps_first_seen_wins_witness :
  ∃ entity_dict,
    get_entity_status (two_submissions 100 100) (two_details 200)
                      "sample" None = Ok entity_dict ∧
    entity_dict !! "S1" = Some (new_record (sub_first 100) wf_failed).
Proof.
  apply (equal_timestamps_first_seen_wins
           (two_submissions 100 100) (two_details 200) "sample" None
           [sub_first 100; sub_second 100]
           [] [(sub_second 100, wf_succeeded)] (sub_first 100) wf_failed).
  - reflexivity.
  - apply two_submissions_fetched.
  - reflexivity.
  - intros sw Hin. by apply elem_of_nil in Hin.
  - intros sw Hin _. apply list_elem_of_singleton in Hin as ->. apply Qle_refl.
Defined.

Lemma submission_fetch_failure_aborts_witness :
  get_entity_status (two_submissions 100 200) (two_details 500)
                    "sample" None = Raise AssertionError.
Proof.
  apply (submission_fetch_failure_aborts
           (two_submissions 100 200) (two_details 500) "sample" None
           [sub_first 100; sub_second 200] (sub_second 200)).
  - reflexivity.
  - right. by left.
  - reflexivity.
  - discriminate.
Defined.

Lemma list_submissions_filter_witness :
  ∃ l, list_submissions (two_submissions 100 200) (Some "wgs") = Ok l ∧
       l `sublist_of` json (two_submissions 100 200) ∧
       ∀ s, s ∈ l ↔
            s ∈ json (two_submissions 100 200) ∧
            ∃ a b, methodConfigurationName s = a ++ "wgs" ++ b.
Proof.
  apply (list_submissions_filter (two_submissions 100 200) (Some "wgs")).
  reflexivity.
Defined.

Lemma get_entity_status_keys_witness :
  is_Some (({[ "S1" := new_record (sub_second 200) wf_succeeded ]}
              : gmap string entity_record) !! "S1") ↔
  ∃ s w, visits (two_details 200) "sample"
                [sub_first 100; sub_second 200] s w ∧
         workflowEntityName w = "S1".
Proof.
  apply (get_entity_status_keys (two_submissions 100 200) (two_details 200)
           "sample" None [sub_first 100; sub_second 200]).
  - reflexivity.
  - apply two_submissions_fetched.
  - vm_compute. reflexivity.
Defined.

Lemma no_submission_of_type_raises_witness :
  get_entity_status (two_submissions 100 200) (two_details 500) "pair" None
  = Raise KeyError.
Proof.
  apply (no_submission_of_type_raises (two_submissions 100 200)
           (two_details 500) "pair" None [sub_first 100; sub_second 200]).
  - reflexivity.
  - intros s Hs. apply list_elem_of_In in Hs.
    destruct Hs as [<-|[<-|[]]]; discriminate.
Defined.

End Status.

(** * Workflow metadata *)

(** The call/attempt tree of a workflow, as [get_workflow_metadata] parses
    it. Time stamps are held as seconds since the epoch, the value
    [convert_time] gives for the ISO-8601 text of the field. The keys the code
    tests with [in] before it reads them are options. *)

Record event : Type := Event {
  description : string;
  startTime : Q;
  endTime : Q;
}.

Record attempt : Type := Attempt {
  shardIndex : option Z;
  start : Q;
  end_ : Q;
  executionEvents : list event;
  (** [j['callCaching']['hit']], when the key [hit] is there *)
  callCaching_hit : option bool;
  preemptible : bool;
  (** [j['jes']['machineType']] *)
  jes_machineType : string;
  jobId : string;
  outputs : option (list (string * string));
}.

Record metadata : Type := Metadata {
  workflowName : string;
  wf_start : Q;
  wf_end : Q;
  wf_outputs : option (list (string * string));
  calls : list (string * list attempt);
}.

(** What the variable [metadata] of the callers can hold: the HTTP response
    or the document parsed from it. *)
Inductive pyvalue : Type :=
  | PyResponse (r : response metadata)
  | PyJson (m : metadata).

(** [WorkspaceManager.get_workflow_metadata], lines 395-400, on the answer
    of the remote call: the parsed document is returned, not the response. *)
Definition get_workflow_metadata (answer : result (response metadata))
  : result pyvalue :=
  r ← answer;
  _ ← py_assert (status_code r =? 200)%Z;
  Ok (PyJson (json r)).

(** [v.json()]: a method of the response; a parsed document (a [dict]) has
    no such attribute. *)
Definition call_json (v : pyvalue) : result pyvalue :=
  match v with
  | PyResponse r => Ok (PyJson (json r))
  | PyJson _ => Raise AttributeError
  end.

(** * Execution statistics *)

Module Stats.

Local Open Scope Q_scope.

(** *** Insertion-ordered dictionaries

    [successes] is iterated with [.values()]: a key keeps the place of its
    first insertion, a later assignment replaces the value there. *)

Fixpoint od_set {V : Type} (k : Z) (v : V) (d : list (Z * V)) : list (Z * V) :=
  match d with
  | [] => [(k, v)]
  | (k', v') :: d' =>
      if (k' =? k)%Z then (k, v) :: d' else (k', v') :: od_set k v d'
  end.

Fixpoint od_get {V : Type} (k : Z) (d : list (Z * V)) : option V :=
  match d with
  | [] => None
  | (k', v') :: d' => if (k' =? k)%Z then Some v' else od_get k d'
  end.

Definition od_mem {V : Type} (k : Z) (d : list (Z * V)) : bool :=
  bool_decide (is_Some (od_get k d)).

Definition od_values {V : Type} (d : list (Z * V)) : list V := map snd d.

(** *** Shard resolution, lines 717-730 *)

(** One turn of the loop of lines 722-726 on [(successes, preemptions)]. *)
Definition resolve_attempt (st : list (Z * attempt) * list attempt)
    (j : attempt) : result (list (Z * attempt) * list attempt) :=
  match shardIndex j with
  | None => Raise KeyError
  | Some k =>
      let preemptions :=
        if od_mem k st.1 then (st.2 ++ [j])%list else st.2 in
      Ok (od_set k j st.1, preemptions)
  end.

Fixpoint resolve_scatter (attempts : list attempt)
    (st : list (Z * attempt) * list attempt)
  : result (list (Z * attempt) * list attempt) :=
  match attempts with
  | [] => Ok st
  | j :: rest => st' ← resolve_attempt st j; resolve_scatter rest st'
  end.

(** [(successes, preemptions)] for the attempts of one task of one
    entity. *)
Definition resolve_shards (attempts : list attempt)
  : result (list (Z * attempt) * list attempt) :=
  match attempts with
  | [] => Raise IndexError
  | j0 :: _ =>
      if bool_decide (is_Some (shardIndex j0))
      then resolve_scatter attempts ([], [])
      else Ok ([(0%Z, List.last attempts j0)], removelast attempts)
  end.

(** *** The row of a task, lines 732-756 *)

(** A row of [task_dfs[task_name]]; [None] is the NaN of a cell that was
    never assigned. *)
Record task_row : Type := TaskRow {
  time_h : Q;
  total_time_h : Q;
  max_preempt_time_h : option Q;
  machine_type : option string;
  attempts_count : option nat;
  start_time : option string;
  est_cost : option Q;
  job_ids : option string;
}.

Definition is_quota_wait (e : event) : bool :=
  String.eqb (description e) "waiting for quota".

(** Line 742: [np.any(['hit' in j['callCaching'] and j['callCaching']['hit']
    for j in ...])]. *)
Definition cache_hit (attempts : list attempt) : bool :=
  existsb (λ j, default false (callCaching_hit j)) attempts.

(** *** Collaborators and metadata to run the definitions on *)

(** Modelled from the spec: [workflow_time] is not part of this file; the
    spec calls its value the wall-clock duration of the attempt, here the
    seconds from its start to its end. *)
Definition wall_clock (j : attempt) : Q := end_ j - start j.

(** A pricing table with one rate for preemptible machines and one for the
    others. *)
Definition price_list (m : string) (preempt : bool) : Q :=
  if preempt then 5 # 100 else 20 # 100.

(** A clock that prints every time stamp as midnight. *)
Definition midnight (t : Q) : string := "00:00".

(** [int] on a string of decimal digits. *)
Fixpoint decimal_value (acc : Z) (s : string) : result Z :=
  match s with
  | EmptyString => Ok acc
  | String c s' =>
      let n := Z.of_nat (nat_of_ascii c) in
      if ((48 <=? n) && (n <=? 57))%Z
      then decimal_value (10 * acc + (n - 48))%Z s'
      else Raise ValueError
  end.

Definition decimal_int (s : string) : result Z :=
  match s with
  | EmptyString => Raise ValueError
  | _ => decimal_value 0 s
  end.

Definition vm : string := "us-central1-b/n1-standard-8".

(** Three attempts of shard 0 of a scattered task, in metadata order. *)
Definition shard0_first : attempt :=
  Attempt (Some 0%Z) 0 3600 [] (Some false) true vm "job-1" None.
Definition shard0_second : attempt :=
  Attempt (Some 0%Z) 3600 5400 [] (Some false) true vm "job-2" None.
Definition shard0_third : attempt :=
  Attempt (Some 0%Z) 5400 12600 [] (Some false) true vm "job-3" None.
Definition shard0_attempts : list attempt :=
  [shard0_first; shard0_second; shard0_third].

(** One attempt of two hours that waits half an hour for quota. *)
Definition quota_attempt : attempt :=
  Attempt None 0 7200
          [Event "waiting for quota" 0 1800; Event "running" 1800 7200]
          None false vm "job-4" None.

(** A task answered from the call cache after a first attempt of an hour. *)
Definition cached_attempts : list attempt :=
  [Attempt None 0 3600 [] (Some false) false vm "job-5" None;
   Attempt None 3600 3660 [] (Some true) false vm "job-6" None].

(** A task whose first attempt, not preemptible, was followed by a second
    one. *)
Definition retried_attempts : list attempt :=
  [Attempt None 0 600 [] None false vm "job-7" None;
   Attempt None 600 4200 [] None false vm "job-8" None].

(** A task without shard index whose first attempt was preempted after half
    an hour and whose second attempt ran for two hours. *)
Definition preempted_first : attempt :=
  Attempt None 0 1800 [] None true vm "job-11" None.
Definition preempted_final : attempt :=
  Attempt None 1800 9000 [] None false vm "job-12" None.

(** The row of another task of the same entity. *)
Definition other_row : task_row :=
  TaskRow 2 2 None (Some "n1-standard-8") (Some 1%nat) (Some "00:00")
          (Some (4 # 10)) (Some "job-9").

Section get_stats.

(** [workflow_time], imported from the package's core module: the
    wall-clock duration of an attempt, in seconds (the callers divide by
    3600 to get hours). *)
Variable workflow_time : attempt → Q.

(** The pricing table, [get_vm_cost(machine_type, preemptible)], dollars
    per hour. *)
Variable get_vm_cost : string → bool → Q.

(** [iso8601.parse_date(.).astimezone(pytz.timezone(self.timezone))
    .strftime('%H:%M')] on a time stamp. *)
Variable local_hhmm : Q → string.

(** [int] of Python on a string. *)
Variable py_int : string → result Z.

(** Hours of each attempt of a list, [workflow_time(j)/3600]. *)
Definition hours (l : list attempt) : list Q :=
  map (λ j, workflow_time j / 3600) l.

(** Lines 735-736: the hours of the events of the accepted attempts that
    wait for quota. *)
Definition quota_time (successes : list (Z * attempt)) : list Q :=
  let quota_time :=
    flat_map (λ m, filter (λ e, is_quota_wait e = true) (executionEvents m))
             (od_values successes) in
  map (λ q, (endTime q - startTime q) / 3600) quota_time.

Definition task_stats (attempts : list attempt) : result task_row :=
  sp ← resolve_shards attempts;
  let successes := sp.1 in
  let preemptions := sp.2 in
  let time_h0 := Qsum (hours (od_values successes)) in
  (* subtract time spent waiting for quota *)
  let time_h1 := time_h0 - Qsum (quota_time successes) in
  let total_time_h := hours attempts in
  let total := Qsum total_time_h - Qsum (quota_time successes) in
  if negb (cache_hit attempts) then
    let was_preemptible := map preemptible attempts in
    max_preempt ←
      (if (0 <? length preemptions)%nat then
         _ ← py_assert (hd false was_preemptible);
         match map workflow_time preemptions with
         | [] => Raise ValueError
         | x :: xs => Ok (Some (Qmax_list x xs / 3600))
         end
       else Ok None);
    let machine_types :=
      map (λ j, last_piece "/" (jes_machineType j)) attempts in
    Ok {| time_h := time_h1;
          total_time_h := total;
          max_preempt_time_h := max_preempt;
          machine_type := Some (List.last machine_types "");
          attempts_count := Some (length attempts);
          start_time := Some (local_hhmm (hd 0 (map start attempts)));
          est_cost :=
            Some (Qsum (map (λ hmp, get_vm_cost hmp.1.2 hmp.2 * hmp.1.1)
                            (zip (zip total_time_h machine_types)
                                 was_preemptible)));
          job_ids :=
            Some (String.concat "," (map jobId (od_values successes))) |}
  else
    Ok {| time_h := time_h1;
          total_time_h := total;
          max_preempt_time_h := None;
          machine_type := None;
          attempts_count := None;
          start_time := None;
          est_cost := None;
          job_ids := None |}.

(** The column of one task: [task_stats] for each entity of the group, in
    index order (the loop of line 716). *)
Fixpoint task_table (entities : list (list attempt))
  : result (list task_row) :=
  match entities with
  | [] => Ok []
  | attempts :: rest =>
      row ← task_stats attempts;
      rows ← task_table rest;
      Ok (row :: rows)
  end.

(** *** Workflow-level aggregates of one entity, lines 759-761

    [rows] holds the entity's row in the table of each task. *)

(** [DataFrame.sum(axis=1)] leaves NaN cells out. *)
Definition workflow_est_cost (rows : list task_row) : Q :=
  Qsum (map (λ r, default 0 (est_cost r)) rows).

(** The lambda of line 761. *)
Definition core_count (i : option string) : result Z :=
  match i with
  | Some i =>
      if negb (contains "-small" i) && negb (contains "-micro" i)
      then py_int (last_piece "-" i)
      else Ok 1%Z
  | None => Ok 1%Z
  end.

Fixpoint workflow_cpu_hours (rows : list task_row) : result Q :=
  match rows with
  | [] => Ok 0
  | r :: rest =>
      c ← core_count (machine_type r);
      h ← workflow_cpu_hours rest;
      Ok (total_time_h r * inject_Z c + h)
  end.

(** *** Fetching the metadata, lines 682-689

    [answers n] is what the remote gives to the [n]-th request. The
    [while] loop has no bound; [fuel] bounds the turns the model takes and
    [None] says the loop is still running when they are used up. *)
Fixpoint fetch_metadata (answers : nat → result (response metadata))
    (n fuel : nat) : option (nat * pyvalue) :=
  match fuel with
  | O => None
  | S fuel' =>
      match (metadata ← get_workflow_metadata (answers n);
             call_json metadata) with
      | Ok v => Some (S n, v)
      | Raise _ => fetch_metadata answers (S n) fuel'
      end
  end.

(** *** What the claims speak of *)

(** The attempt at place [p] has the shard index of an attempt before
    it. *)
Definition seen_before (attempts : list attempt) (p : nat) (j : attempt)
  : bool :=
  bool_decide (shardIndex j ∈ shardIndex <$> take p attempts).

(** The attempts that come after another attempt of their shard index, in
    the order of the metadata. *)
Definition later_attempts (attempts : list attempt) : list attempt :=
  concat (imap (λ p j, if seen_before attempts p j then [j] else [])
               attempts).

(** Hours the events of [j] spend waiting for quota. *)
Definition quota_wait_h (j : attempt) : Q :=
  Qsum (map (λ q, (endTime q - startTime q) / 3600)
            (filter (λ e, is_quota_wait e = true) (executionEvents j))).

(** Wall-clock hours of [j] less its quota wait. *)
Definition compute_time_h (j : attempt) : Q :=
  workflow_time j / 3600 - quota_wait_h j.

(** ** Properties *)

Lemma Qsum_app l1 l2 : Qsum (l1 ++ l2) == Qsum l1 + Qsum l2.
Proof.
  induction l1 as [|x l1 IH]; cbn.
  - by rewrite Qplus_0_l.
  - fold (Qsum (l1 ++ l2)). fold (Qsum l1). rewrite IH. ring.
Qed.

Lemma Qmax_list_spec x xs :
  Qmax_list x xs ∈ x :: xs ∧ ∀ y, y ∈ x :: xs → y <= Qmax_list x xs.
Proof.
  revert x. induction xs as [|z xs IH]; intros x.
  - split; [by left|]. intros y Hy. apply list_elem_of_singleton in Hy as ->.
    apply Qle_refl.
  - unfold Qmax_list. cbn [foldl]. fold (Qmax_list (if Qltb x z then z else x) xs).
    destruct (Qltb x z) eqn:Hc.
    + apply Qltb_lt in Hc. destruct (IH z) as [Hin Hmax]. split; [by right|].
      intros y Hy. apply elem_of_cons in Hy as [->|Hy]; [|by apply Hmax].
      apply Qle_trans with z; [by apply Qlt_le_weak|]. apply Hmax. by left.
    + apply Qltb_ge in Hc. destruct (IH x) as [Hin Hmax]. split.
      { apply elem_of_cons in Hin as [->|Hin]; [by left|]. right. by right. }
      intros y Hy. apply elem_of_cons in Hy as [->|Hy]; [apply Hmax; by left|].
      apply elem_of_cons in Hy as [->|Hy].
      * apply Qle_trans with x; [done|]. apply Hmax. by left.
      * apply Hmax. by right.
Qed.

Lemma od_get_set {V : Type} k k' (v : V) d :
  od_get k (od_set k' v d) = if (k' =? k)%Z then Some v else od_get k d.
Proof.
  induction d as [|[k0 v0] d IH]; cbn; [done|].
  destruct (Z.eqb_spec k0 k') as [->|Hne]; cbn.
  - by destruct (k' =? k)%Z.
  - rewrite IH. destruct (Z.eqb_spec k0 k), (Z.eqb_spec k' k); congruence.
Qed.

Lemma resolve_scatter_app l1 l2 st :
  resolve_scatter (l1 ++ l2) st
  = (st' ← resolve_scatter l1 st; resolve_scatter l2 st').
Proof.
  revert st. induction l1 as [|j l1 IH]; intros st; cbn; [done|].
  destruct (resolve_attempt st j); cbn; [apply IH|done].
Qed.

Lemma later_attempts_snoc l j :
  later_attempts (l ++ [j])
  = (later_attempts l
     ++ if bool_decide (shardIndex j ∈ shardIndex <$> l) then [j] else [])%list.
Proof.
  unfold later_attempts. rewrite imap_app, concat_app. f_equal.
  - f_equal. apply imap_ext. intros i x Hix. unfold seen_before.
    rewrite take_app_le; [done|]. apply lookup_lt_Some in Hix. lia.
  - cbn. unfold seen_before. rewrite Nat.add_0_r, take_app_length.
    by rewrite app_nil_r.
Qed.

Lemma last_filter_is_Some (k : Z) (l : list attempt) :
  is_Some (last (filter (λ j, shardIndex j = Some k) l))
  ↔ Some k ∈ shardIndex <$> l.
Proof.
  rewrite last_is_Some, list_elem_of_fmap. split.
  - intros Hne. destruct (filter _ l) as [|x f] eqn:Hf; [done|].
    assert (Hx : x ∈ filter (λ j, shardIndex j = Some k) l)
      by (rewrite Hf; by left).
    apply list_elem_of_filter in Hx as [Hk Hx]. by exists x.
  - intros (x & Hk & Hx) Hnil.
    eapply (filter_nil_not_elem_of (λ j, shardIndex j = Some k));
      [exact Hnil|symmetry; exact Hk|exact Hx].
Qed.

(** The loop of lines 722-726 from the empty dictionary. *)
Lemma resolve_scatter_spec l :
  (∀ j, j ∈ l → is_Some (shardIndex j)) →
  ∃ s p, resolve_scatter l ([], []) = Ok (s, p) ∧
         (∀ k, od_get k s = last (filter (λ j, shardIndex j = Some k) l)) ∧
         p = later_attempts l.
Proof.
  induction l as [|j l IH] using rev_ind; intros Hall.
  { by exists [], []. }
  destruct IH as (s & p & Hrun & Hget & Hp).
  { intros x Hx. apply Hall, elem_of_app. by left. }
  destruct (Hall j) as [kj Hkj]; [apply elem_of_app; right; by left|].
  rewrite resolve_scatter_app, Hrun. cbn. unfold resolve_attempt.
  rewrite Hkj. cbn. eexists _, _. split; [done|]. split.
  - intros k. rewrite od_get_set, filter_app, last_app, filter_cons, Hkj.
    destruct (Z.eqb_spec kj k) as [->|Hne].
    + by rewrite decide_True.
    + rewrite decide_False by congruence. cbn. apply Hget.
  - rewrite later_attempts_snoc, Hkj, Hp. unfold od_mem.
    rewrite (bool_decide_ext _ (Some kj ∈ shardIndex <$> l));
      [destruct (bool_decide _); by rewrite ?app_nil_r|].
    rewrite Hget. apply last_filter_is_Some.
Qed.

(** The fields of the row every branch of lines 732-756 gives. *)
Lemma task_stats_row attempts s p row :
  resolve_shards attempts = Ok (s, p) →
  task_stats attempts = Ok row →
  time_h row = Qsum (hours (od_values s)) - Qsum (quota_time s) ∧
  total_time_h row = Qsum (hours attempts) - Qsum (quota_time s) ∧
  (cache_hit attempts = true → est_cost row = None ∧ machine_type row = None) ∧
  (cache_hit attempts = false →
   max_preempt_time_h row
   = match map workflow_time p with
     | [] => None
     | x :: xs => Some (Qmax_list x xs / 3600)
     end).
Proof.
  intros Hres. unfold task_stats. rewrite Hres. cbn.
  destruct (cache_hit attempts); cbn.
  - intros [= <-]. cbn. repeat split; done.
  - destruct p as [|j p']; cbn.
    + intros [= <-]. cbn. repeat split; done.
    + destruct (hd false (map preemptible attempts)); cbn; [|done].
      intros [= <-]. cbn. repeat split; done.
Qed.

Lemma task_stats_returns attempts s p :
  resolve_shards attempts = Ok (s, p) →
  cache_hit attempts = true ∨ p = [] ∨
    hd false (map preemptible attempts) = true →
  ∃ row, task_stats attempts = Ok row.
Proof.
  intros Hres Hcase. unfold task_stats. rewrite Hres. cbn.
  destruct (cache_hit attempts); cbn; [by eexists|].
  destruct Hcase as [|[->|Hpre]]; [done|by eexists|].
  rewrite Hpre. destruct p as [|j p']; cbn; by eexists.
Qed.

Lemma quota_time_sum s :
  Qsum (quota_time s) == Qsum (map quota_wait_h (od_values s)).
Proof.
  unfold quota_time, od_values. induction s as [|[k j] s IH]; cbn; [done|].
  rewrite map_app, Qsum_app. unfold quota_wait_h at 1.
  apply Qplus_comp; [done|]. apply IH.
Qed.

Lemma compute_time_sum l :
  Qsum (hours l) - Qsum (map quota_wait_h l) == Qsum (map compute_time_h l).
Proof.
  unfold hours. induction l as [|j l IH]; cbn; [done|].
  fold (Qsum (map compute_time_h l)). rewrite <- IH.
  unfold compute_time_h, Qsum. ring.
Qed.

Lemma task_table_row entities rows attempts :
  task_table entities = Ok rows → attempts ∈ entities →
  ∃ row, task_stats attempts = Ok row.
Proof.
  revert rows. induction entities as [|a rest IH]; intros rows Htab Hin.
  { by apply elem_of_nil in Hin. }
  cbn in Htab. destruct (task_stats a) as [row|] eqn:Hrow; [|done].
  cbn in Htab. destruct (task_table rest) as [rows'|] eqn:Hrest; [|done].
  apply elem_of_cons in Hin as [->|Hin]; [by exists row|by eapply IH].
Qed.

Lemma workflow_est_cost_app l1 l2 :
  workflow_est_cost (l1 ++ l2) == workflow_est_cost l1 + workflow_est_cost l2.
Proof. unfold workflow_est_cost. by rewrite map_app, Qsum_app. Qed.

Lemma workflow_cpu_hours_insert row pre post h :
  machine_type row = None →
  workflow_cpu_hours (pre ++ post) = Ok h →
  ∃ h', workflow_cpu_hours (pre ++ row :: post) = Ok h' ∧
        h' == h + total_time_h row * 1.
Proof.
  intros Hm. revert h. induction pre as [|r pre IH]; intros h Hh; cbn in *.
  - rewrite Hm, Hh. cbn. eexists. split; [done|]. unfold inject_Z. ring.
  - destruct (core_count (machine_type r)) as [c|]; [|done]. cbn in *.
    destruct (workflow_cpu_hours (pre ++ post)) as [h0|]; [|done].
    cbn in Hh. injection Hh as <-.
    destruct (IH h0 eq_refl) as (h0' & -> & Heq). cbn.
    eexists. split; [done|]. rewrite Heq. ring.
Qed.

(** C1, as the code has it. For a scattered task the attempt kept for a
    shard index is the last one observed with that index, each attempt
    whose index was seen before is put on the preemption list, and
    [max_preempt_time_h] is the longest duration on that list, in hours
    (for a task without cache hit whose first attempt is preemptible). *)
Theorem scatter_keeps_last_attempt attempts :
  attempts ≠ [] →
  (∀ j, j ∈ attempts → is_Some (shardIndex j)) →
  ∃ successes preemptions,
    resolve_shards attempts = Ok (successes, preemptions) ∧
    (∀ k, od_get k successes
          = last (filter (λ j, shardIndex j = Some k) attempts)) ∧
    preemptions = later_attempts attempts ∧
    (cache_hit attempts = false →
     hd false (map preemptible attempts) = true →
     preemptions ≠ [] →
     ∃ row m,
       task_stats attempts = Ok row ∧
       max_preempt_time_h row = Some (m / 3600) ∧
       (∃ j, j ∈ preemptions ∧ workflow_time j = m) ∧
       (∀ j, j ∈ preemptions → workflow_time j <= m)).
Proof.
  intros Hne Hall. destruct (resolve_scatter_spec attempts Hall)
    as (s & p & Hrun & Hget & Hp).
  assert (Hres : resolve_shards attempts = Ok (s, p)).
  { destruct attempts as [|j0 rest]; [done|]. unfold resolve_shards.
    rewrite bool_decide_eq_true_2; [done|]. apply Hall. by left. }
  exists s, p. split; [done|]. split; [done|]. split; [done|].
  intros Hhit Hpre Hp0.
  destruct (task_stats_returns attempts s p Hres) as [row Hrow]; [auto|].
  destruct (task_stats_row attempts s p row Hres Hrow) as (_ & _ & _ & Hmax).
  specialize (Hmax Hhit).
  destruct (map workflow_time p) as [|x xs] eqn:Hmap.
  { destruct p; [done|discriminate]. }
  destruct (Qmax_list_spec x xs) as [Hin Hle].
  exists row, (Qmax_list x xs). split; [done|]. split; [done|]. split.
  - rewrite <- Hmap in Hin. apply list_elem_of_In, in_map_iff in Hin
      as (j & Hj & Hjin). exists j. by rewrite <- list_elem_of_In in Hjin.
  - intros j Hj. apply Hle. rewrite <- Hmap.
    apply list_elem_of_In, in_map. by apply list_elem_of_In.
Qed.

(** C2, as the code has it. A task with a cache hit on any attempt has no
    [est_cost] and no [machine_type]; it adds nothing to the entity's
    [est_cost] and it adds its [total_time_h], counted with one core, to
    the entity's [cpu_hours]. *)
Theorem cached_task_rollup attempts s p (pre post : list task_row) :
  resolve_shards attempts = Ok (s, p) →
  cache_hit attempts = true →
  ∃ row,
    task_stats attempts = Ok row ∧
    est_cost row = None ∧ machine_type row = None ∧
    workflow_est_cost (pre ++ row :: post)
      == workflow_est_cost (pre ++ post) ∧
    (∀ h, workflow_cpu_hours (pre ++ post) = Ok h →
          ∃ h', workflow_cpu_hours (pre ++ row :: post) = Ok h' ∧
                h' == h + total_time_h row * 1).
Proof.
  intros Hres Hhit.
  destruct (task_stats_returns attempts s p Hres) as [row Hrow]; [auto|].
  destruct (task_stats_row attempts s p row Hres Hrow) as (_ & _ & Hnone & _).
  destruct (Hnone Hhit) as [Hcost Hmachine].
  exists row. split; [done|]. split; [done|]. split; [done|]. split.
  - rewrite !workflow_est_cost_app. apply Qplus_comp; [done|].
    unfold workflow_est_cost. cbn. rewrite Hcost. cbn.
    fold (Qsum (map (λ r, default 0 (est_cost r)) post)). ring.
  - intros h Hh. by apply workflow_cpu_hours_insert.
Qed.

(** C7. The [time_h] of a task is the sum, over its accepted attempts, of
    the attempt's wall-clock hours less the hours of its events described
    as waiting for quota; [total_time_h] is the hours of all attempts less
    the same quota wait. An accepted attempt of 7200 seconds with one such
    event of 1800 seconds counts for 1.5 hours. *)
Theorem quota_wait_subtracted attempts s p :
  resolve_shards attempts = Ok (s, p) →
  cache_hit attempts = true ∨ p = [] ∨
    hd false (map preemptible attempts) = true →
  ∃ row,
    task_stats attempts = Ok row ∧
    time_h row == Qsum (map compute_time_h (od_values s)) ∧
    total_time_h row
      == Qsum (hours attempts) - Qsum (map quota_wait_h (od_values s)) ∧
    (∀ j q, j ∈ od_values s →
            workflow_time j == 7200 →
            filter (λ e, is_quota_wait e = true) (executionEvents j) = [q] →
            endTime q - startTime q == 1800 →
            compute_time_h j == 3 # 2).
Proof.
  intros Hres Hcase.
  destruct (task_stats_returns attempts s p Hres Hcase) as [row Hrow].
  destruct (task_stats_row attempts s p row Hres Hrow) as (Ht & Htot & _).
  exists row. split; [done|]. split; [|split].
  - rewrite Ht, quota_time_sum. apply compute_time_sum.
  - by rewrite Htot, quota_time_sum.
  - intros j q _ Hwall Hev Hq. unfold compute_time_h, quota_wait_h.
    rewrite Hev. cbn. rewrite Hwall, Hq. reflexivity.
Qed.

(** C9, on the code. The turn of the loop never gets past [metadata.json()]:
    [get_workflow_metadata] has parsed the answer already, the call raises
    and the bare [except] swallows it. Whatever the remote answers, also
    200 at the first request, the loop is still running after any number
    of turns. *)
Theorem fetch_metadata_never_returns answers n fuel :
  fetch_metadata answers n fuel = None.
Proof.
  revert n. induction fuel as [|fuel IH]; intros n; cbn; [done|].
  unfold get_workflow_metadata.
  destruct (answers n) as [r|e]; cbn; [|apply IH].
  destruct (status_code r =? 200)%Z; cbn; apply IH.
Qed.

(** C10. A task without cache hit that has a preemption and whose first
    attempt is not preemptible stops the computation with an assertion
    failure; so in a table that was returned each such task has a
    preemptible first attempt. *)
Theorem unpreemptible_first_attempt_asserts attempts s p :
  resolve_shards attempts = Ok (s, p) →
  cache_hit attempts = false →
  p ≠ [] →
  (hd false (map preemptible attempts) = false →
   task_stats attempts = Raise AssertionError ∧
   ∀ entities, attempts ∈ entities →
               ∃ e, task_table entities = Raise e) ∧
  (∀ entities rows, attempts ∈ entities →
                    task_table entities = Ok rows →
                    hd false (map preemptible attempts) = true).
Proof.
  intros Hres Hhit Hp.
  assert (Hassert : hd false (map preemptible attempts) = false →
                    task_stats attempts = Raise AssertionError).
  { intros Hfirst. unfold task_stats. rewrite Hres. cbn. rewrite Hhit. cbn.
    destruct p as [|j p']; [done|]. cbn. by rewrite Hfirst. }
  split.
  - intros Hfirst. split; [by apply Hassert|]. intros entities Hin.
    destruct (task_table entities) as [rows|e] eqn:Htab; [|by exists e].
    destruct (task_table_row _ _ _ Htab Hin) as [row Hrow].
    rewrite Hassert in Hrow by done. discriminate.
  - intros entities rows Hin Htab.
    destruct (task_table_row _ _ _ Htab Hin) as [row Hrow].
    destruct (hd false (map preemptible attempts)); [done|].
    rewrite Hassert in Hrow by done. discriminate.
Qed.

(** ** Further properties of the task rows *)

Lemma task_stats_resolved attempts row :
  task_stats attempts = Ok row →
  ∃ s p, resolve_shards attempts = Ok (s, p).
Proof.
  unfold task_stats. destruct (resolve_shards attempts) as [[s p]|e]; [|done].
  intros _. by exists s, p.
Qed.

(** The cells of a row that only a task without cache hit gets. *)
Lemma task_stats_uncached attempts s p row :
  resolve_shards attempts = Ok (s, p) →
  task_stats attempts = Ok row →
  cache_hit attempts = false →
  machine_type row
  = Some (List.last (map (λ j, last_piece "/" (jes_machineType j)) attempts) "") ∧
  attempts_count row = Some (length attempts) ∧
  start_time row = Some (local_hhmm (hd 0 (map start attempts))) ∧
  est_cost row
  = Some (Qsum (map (λ hmp, get_vm_cost hmp.1.2 hmp.2 * hmp.1.1)
                    (zip (zip (hours attempts)
                              (map (λ j, last_piece "/" (jes_machineType j))
                                   attempts))
                         (map preemptible attempts)))) ∧
  job_ids row = Some (String.concat "," (map jobId (od_values s))).
Proof.
  intros Hres. unfold task_stats. rewrite Hres. cbn. intros Hrow Hhit.
  rewrite Hhit in Hrow. cbn in Hrow.
  destruct p as [|j p']; cbn in Hrow.
  - injection Hrow as <-. cbn. repeat split; reflexivity.
  - destruct (hd false (map preemptible attempts)); cbn in Hrow; [|done].
    injection Hrow as <-. cbn. repeat split; reflexivity.
Qed.







(** X5. A task whose first attempt has no shard index has one accepted
    attempt, the last one, recorded under index 0, and all attempts before
    it are on the preemption list. Its [job_ids] is the job of that last
    attempt and its [max_preempt_time_h] the longest of the earlier
    attempts. *)
Theorem unsharded_last_attempt (prior : list attempt) final j0 :
  head (prior ++ [final]) = Some j0 →
  shardIndex j0 = None →
  resolve_shards (prior ++ [final]) = Ok ([(0%Z, final)], prior) ∧
  (cache_hit (prior ++ [final]) = false →
   prior = [] ∨ preemptible j0 = true →
   ∃ row,
     task_stats (prior ++ [final]) = Ok row ∧
     job_ids row = Some (jobId final) ∧
     max_preempt_time_h row
     = match map workflow_time prior with
       | [] => None
       | x :: xs => Some (Qmax_list x xs / 3600)
       end).
Proof.
  intros Hhead Hnone.
  assert (Hres : resolve_shards (prior ++ [final])
                 = Ok ([(0%Z, final)], prior)).
  { unfold resolve_shards. destruct (prior ++ [final])%list as [|j rest] eqn:Hl.
    { by destruct prior. }
    injection Hhead as ->. rewrite bool_decide_eq_false_2.
    - by rewrite <- Hl, last_last, removelast_last.
    - rewrite Hnone. by intros [? ?]. }
  split; [done|]. intros Hhit Hpre.
  destruct (task_stats_returns _ _ _ Hres) as [row Hrow].
  { right. destruct Hpre as [->|Hpre]; [by left|right].
    destruct prior; cbn in *; injection Hhead as ->; done. }
  exists row. split; [done|].
  destruct (task_stats_uncached _ _ _ _ Hres Hrow Hhit) as (_ & _ & _ & _ & ->).
  destruct (task_stats_row _ _ _ _ Hres Hrow) as (_ & _ & _ & ->); [|done].
  split; done.
Qed.

Lemma resolve_scatter_missing_index l st j :
  j ∈ l → shardIndex j = None → resolve_scatter l st = Raise KeyError.
Proof.
  intros Hin Hnone. revert st. induction l as [|j' l IH]; intros st.
  { by apply elem_of_nil in Hin. }
  cbn. unfold resolve_attempt.
  destruct (shardIndex j') as [k|] eqn:Hk; [|done]. cbn.
  apply elem_of_cons in Hin as [->|Hin]; [congruence|by apply IH].
Qed.

(** X6. A task whose first attempt has a shard index and one of whose later
    attempts has none ends the computation with a [KeyError]; a task without
    attempts ends it with an [IndexError]. *)
Theorem mixed_shard_indices_raise j0 rest j :
  is_Some (shardIndex j0) →
  j ∈ rest →
  shardIndex j = None →
  resolve_shards (j0 :: rest) = Raise KeyError ∧
  task_stats (j0 :: rest) = Raise KeyError ∧
  task_stats [] = Raise IndexError.
Proof.
  intros Hsome Hin Hnone.
  assert (Hres : resolve_shards (j0 :: rest) = Raise KeyError).
  { unfold resolve_shards. rewrite bool_decide_eq_true_2 by done.
    apply (resolve_scatter_missing_index _ _ j); [by right|done]. }
  split; [done|]. split; [|done]. unfold task_stats. by rewrite Hres.
Qed.



Local Arguments Qsum : simpl never.







Lemma zip_map3 {A B C D E : Type} (a : A → B) (b : A → C) (c : A → D)
    (g : B * C * D → E) (l : list A) :
  map g (zip (zip (map a l) (map b l)) (map c l))
  = map (λ x, g (a x, b x, c x)) l.
Proof. induction l as [|x l IH]; cbn; [done|]. by rewrite IH. Qed.

(** X8. The [est_cost] of a task without cache hit bills every attempt, the
    preempted ones too: it is the sum, over the attempts, of the hourly
    rate of the attempt's machine type and preemptible flag times the
    attempt's hours. *)
Theorem est_cost_bills_every_attempt attempts row :
  task_stats attempts = Ok row →
  cache_hit attempts = false →
  est_cost row
  = Some (Qsum (map (λ j, get_vm_cost (last_piece "/" (jes_machineType j))
                                      (preemptible j)
                          * (workflow_time j / 3600))
                    attempts)).
Proof.
  intros Hrow Hhit. destruct (task_stats_resolved _ _ Hrow) as (s & p & Hres).
  destruct (task_stats_uncached _ _ _ _ Hres Hrow Hhit) as (_ & _ & _ & -> & _).
  unfold hours. by rewrite zip_map3.
Qed.

(** X9. The [machine_type] of a task without cache hit is read from its
    last attempt: what follows the last slash of [jes.machineType]. *)
Theorem machine_type_of_last_attempt (prior : list attempt) final
    (zone name : string) row :
  task_stats (prior ++ [final]) = Ok row →
  cache_hit (prior ++ [final]) = false →
  jes_machineType final = zone ++ String "/" name →
  contains "/" name = false →
  machine_type row = Some name.
Proof.
  intros Hrow Hhit Hmachine Hname.
  destruct (task_stats_resolved _ _ Hrow) as (s & p & Hres).
  destruct (task_stats_uncached _ _ _ _ Hres Hrow Hhit) as (-> & _).
  rewrite map_app. cbn. rewrite last_last, Hmachine. unfold last_piece.
  by rewrite last_piece_from_after.
Qed.

End get_stats.

(** The row of the scattered task: the third attempt is the accepted one,
    the longest attempt on the preemption list took two hours. *)
Example shard0_row :
  ∃ row,
    task_stats wall_clock price_list midnight shard0_attempts = Ok row ∧
    max_preempt_time_h row = Some (7200 / 3600) ∧
    job_ids row = Some "job-3" ∧
    attempts_count row = Some 3%nat ∧
    machine_type row = Some "n1-standard-8".
Proof. eexists. repeat split; reflexivity. Qed.

(** Two hours of wall clock, half an hour of quota wait: an hour and a
    half. *)
Example quota_attempt_row :
  ∃ row,
    task_stats wall_clock price_list midnight [quota_attempt] = Ok row ∧
    time_h row == 3 # 2 ∧ total_time_h row == 3 # 2.
Proof. eexists. repeat split; reflexivity. Qed.

(** An attempt of an hour and a quarter on a preemptible machine at $0.05
    an hour costs $0.0625. *)
Example preemptible_cost :
  ∃ row,
    task_stats wall_clock price_list midnight
      [Attempt None 0 4500 [] None true vm "job-10" None] = Ok row ∧
    match est_cost row with
    | Some c => c == 625 # 10000
    | None => False
    end.
Proof. eexists. split; reflexivity. Qed.

(** C1, as stated, fails: of three attempts of shard 0 the one kept as the
    accepted attempt is the third, not the first observed. *)
Lemma first_attempt_not_accepted :
  ∃ successes preemptions,
    resolve_shards shard0_attempts = Ok (successes, preemptions) ∧
    shard0_attempts !! 0%nat = Some shard0_first ∧
    od_get 0 successes = Some shard0_third ∧
    od_get 0 successes ≠ Some shard0_first ∧
    preemptions = [shard0_second; shard0_third].
Proof.
  exists [(0%Z, shard0_third)], [shard0_second; shard0_third].
  repeat split; try reflexivity. cbn. discriminate.
Qed.

Lemma scatter_keeps_last_attempt_witness :
  ∃ successes preemptions,
    resolve_shards shard0_attempts = Ok (successes, preemptions) ∧
    (∀ k, od_get k successes
          = last (filter (λ j, shardIndex j = Some k) shard0_attempts)) ∧
    preemptions = later_attempts shard0_attempts ∧
    (cache_hit shard0_attempts = false →
     hd false (map preemptible shard0_attempts) = true →
     preemptions ≠ [] →
     ∃ row m,
       task_stats wall_clock price_list midnight shard0_attempts = Ok row ∧
       max_preempt_time_h row = Some (m / 3600) ∧
       (∃ j, j ∈ preemptions ∧ wall_clock j = m) ∧
       (∀ j, j ∈ preemptions → wall_clock j <= m)).
Proof.
  apply (scatter_keeps_last_attempt wall_clock price_list midnight shard0_attempts).
  - discriminate.
  - intros j Hj. apply list_elem_of_In in Hj.
    destruct Hj as [<-|[<-|[<-|[]]]]; by eexists.
Defined.

(** C2, as stated, fails: the task answered from the cache adds its
    [total_time_h] to [cpu_hours], which is 0 without it. *)
Lemma cached_task_counts_cpu_hours :
  ∃ row h,
    cache_hit cached_attempts = true ∧
    task_stats wall_clock price_list midnight cached_attempts = Ok row ∧
    workflow_cpu_hours decimal_int [row] = Ok h ∧
    workflow_cpu_hours decimal_int [] = Ok 0 ∧
    h == 3660 # 3600 ∧ ¬ h == 0.
Proof.
  eexists _, _. split; [reflexivity|]. split; [reflexivity|].
  split; [reflexivity|]. split; [reflexivity|]. split; [reflexivity|].
  intros H. vm_compute in H. discriminate.
Qed.

Lemma cached_task_rollup_witness :
  ∃ row,
    task_stats wall_clock price_list midnight cached_attempts = Ok row ∧
    est_cost row = None ∧ machine_type row = None ∧
    workflow_est_cost ([other_row] ++ row :: [])
      == workflow_est_cost ([other_row] ++ []) ∧
    (∀ h, workflow_cpu_hours decimal_int ([other_row] ++ []) = Ok h →
          ∃ h', workflow_cpu_hours decimal_int ([other_row] ++ row :: [])
                = Ok h' ∧
                h' == h + total_time_h row * 1).
Proof.
  apply (cached_task_rollup wall_clock price_list midnight decimal_int cached_attempts
           [(0%Z, Attempt None 3600 3660 [] (Some true) false vm "job-6" None)]
           [Attempt None 0 3600 [] (Some false) false vm "job-5" None]).
  - reflexivity.
  - reflexivity.
Defined.

Lemma quota_wait_subtracted_witness :
  ∃ row,
    task_stats wall_clock price_list midnight [quota_attempt] = Ok row ∧
    time_h row == Qsum (map (compute_time_h wall_clock) (od_values [(0%Z, quota_attempt)])) ∧
    total_time_h row
      == Qsum (hours wall_clock [quota_attempt])
         - Qsum (map quota_wait_h (od_values [(0%Z, quota_attempt)])) ∧
    (∀ j q, j ∈ od_values [(0%Z, quota_attempt)] →
            wall_clock j == 7200 →
            filter (λ e, is_quota_wait e = true) (executionEvents j) = [q] →
            endTime q - startTime q == 1800 →
            compute_time_h wall_clock j == 3 # 2).
Proof.
  apply (quota_wait_subtracted wall_clock price_list midnight [quota_attempt]
           [(0%Z, quota_attempt)] []).
  - reflexivity.
  - right. left. reflexivity.
Defined.

Lemma unpreemptible_first_attempt_asserts_witness :
  (hd false (map preemptible retried_attempts) = false →
   task_stats wall_clock price_list midnight retried_attempts = Raise AssertionError ∧
   ∀ entities, retried_attempts ∈ entities →
               ∃ e, task_table wall_clock price_list midnight entities = Raise e) ∧
  (∀ entities rows, retried_attempts ∈ entities →
                    task_table wall_clock price_list midnight entities = Ok rows →
                    hd false (map preemptible retried_attempts) = true).
Proof.
  apply (unpreemptible_first_attempt_asserts wall_clock price_list midnight
           retried_attempts
           [(0%Z, Attempt None 600 4200 [] None false vm "job-8" None)]
           [Attempt None 0 600 [] None false vm "job-7" None]).
  - reflexivity.
  - reflexivity.
  - discriminate.
Defined.


Lemma unsharded_last_attempt_witness :
  resolve_shards ([preempted_first] ++ [preempted_final])
  = Ok ([(0%Z, preempted_final)], [preempted_first]) ∧
  (cache_hit ([preempted_first] ++ [preempted_final]) = false →
   [preempted_first] = [] ∨ preemptible preempted_first = true →
   ∃ row,
     task_stats wall_clock price_list midnight
                ([preempted_first] ++ [preempted_final]) = Ok row ∧
     job_ids row = Some (jobId preempted_final) ∧
     max_preempt_time_h row
     = match map wall_clock [preempted_first] with
       | [] => None
       | x :: xs => Some (Qmax_list x xs / 3600)
       end).
Proof.
  apply (unsharded_last_attempt wall_clock price_list midnight
           [preempted_first] preempted_final preempted_first).
  - reflexivity.
  - reflexivity.
Defined.

Lemma mixed_shard_indices_raise_witness :
  resolve_shards (shard0_first :: [quota_attempt]) = Raise KeyError ∧
  task_stats wall_clock price_list midnight (shard0_first :: [quota_attempt])
  = Raise KeyError ∧
  task_stats wall_clock price_list midnight [] = Raise IndexError.
Proof.
  apply (mixed_shard_indices_raise wall_clock price_list midnight
           shard0_first [quota_attempt] quota_attempt).
  - by eexists.
  - by left.
  - reflexivity.
Defined.


Lemma est_cost_bills_every_attempt_witness :
  ∃ row,
    task_stats wall_clock price_list midnight shard0_attempts = Ok row ∧
    est_cost row
    = Some (Qsum (map (λ j, price_list (last_piece "/" (jes_machineType j))
                                       (preemptible j)
                            * (wall_clock j / 3600))
                      shard0_attempts)).
Proof.
  eexists. split; [reflexivity|].
  apply (est_cost_bills_every_attempt wall_clock price_list midnight
           shard0_attempts).
  - reflexivity.
  - reflexivity.
Defined.

Lemma machine_type_of_last_attempt_witness :
  ∃ row,
    task_stats wall_clock price_list midnight
               ([preempted_first] ++ [preempted_final]) = Ok row ∧
    machine_type row = Some "n1-standard-8".
Proof.
  eexists. split; [reflexivity|].
  apply (machine_type_of_last_attempt wall_clock price_list midnight
           [preempted_first] preempted_final "us-central1-b" "n1-standard-8").
  - reflexivity.
  - reflexivity.
  - reflexivity.
  - reflexivity.
Defined.

End Stats.

(** * Patching of attributes that were not written *)

Module Patch.

(** The argument [attrs] of [update_entity_attributes]: the two pandas
    shapes it handles, and the [dict] its callers in [patch_attributes]
    build. *)
Inductive attrs_value : Type :=
  | AttrsFrame (rows : list (string * list (string * string)))
  | AttrsSeries (name : string) (items : list (string * string))
  | AttrsDict (items : gmap string string).

(** An item of the body of the batch update: every operation is an
    [AddUpdateAttribute]. *)
Record entity_update : Type := EntityUpdate {
  name : string;
  entityType : string;
  operations : list (string * string);
}.

(** What lines 504-523 read for samples: the output map of the
    configuration, the rows of [incomplete_df] (sample id and the attributes
    that are not null) and the status table. *)
Record sample_inputs : Type := SampleInputs {
  output_map : gmap string string;
  incomplete_df : list (string * gmap string string);
  sample_status_df : gmap string Status.entity_record;
}.

(** What lines 504-569 read for sample sets. *)
Record set_inputs : Type := SetInputs {
  set_output_map : gmap string string;
  set_incomplete : list string;
  sample_set_status_df : gmap string Status.entity_record;
  error_ix : list string;
}.

(** *** A workspace to run the definitions on

    The workspace is the log of the batch updates it has received. The
    metadata of workflow wf-1 cannot be fetched; workflow wf-2 failed after
    its task VariantCall had produced its output. *)

Definition update_log : Type := list (list entity_update).

Definition variant_call : attempt :=
  Attempt None 0 3600 [] None false "us-central1-b/n1-standard-8" "job-1"
          (Some [("output_vcf", "gs://bucket/S2.vcf")]).

Definition failed_run : metadata :=
  Metadata "wgs" 0 3600 None [("wgs.VariantCall", [variant_call])].

Definition log_metadata (st : update_log) (sid wid : string)
  : result (response metadata) :=
  if String.eqb wid "wf-1" then Ok (Response 500 failed_run)
  else Ok (Response 200 failed_run).

Definition log_batch_update (st : update_log) (body : list entity_update)
  : Z * update_log :=
  (204%Z, body :: st).

Definition two_samples : sample_inputs :=
  SampleInputs
    {[ "output_vcf" := "vcf_path" ]}
    [("S1", ∅); ("S2", ∅)]
    {[ "S1" := Status.EntityRecord "Failed" 100 "sub-1" "wgs_pipeline" "wf-1";
       "S2" := Status.EntityRecord "Failed" 100 "sub-1" "wgs_pipeline" "wf-2" ]}.

(** A run that succeeded and carries its outputs, for sample S3 whose
    attribute was not written. *)
Definition succeeded_run : metadata :=
  Metadata "wgs" 0 3600 (Some [("wgs.output_vcf", "gs://bucket/S3.vcf")])
           [("wgs.VariantCall", [variant_call])].

Definition log_metadata_succeeded (st : update_log) (sid wid : string)
  : result (response metadata) :=
  Ok (Response 200 succeeded_run).

Definition one_sample : sample_inputs :=
  SampleInputs
    {[ "output_vcf" := "vcf_path" ]}
    [("S3", ∅)]
    {[ "S3" := Status.EntityRecord "Succeeded" 100 "sub-3" "wgs_pipeline"
                                   "wf-3" ]}.

Definition no_sets : set_inputs := SetInputs ∅ [] ∅ [].

Section patch_attributes.

(** The state of the remote workspace and the calls made on it. The reads
    are GET requests; [_batch_update_entities] is the one request that
    gives a new state, with the HTTP status of its answer. *)
Variable remote : Type.
Variable api_get_workflow_metadata :
  remote → string → string → result (response metadata).
Variable api_batch_update_entities :
  remote → list entity_update → Z * remote.
Variable read_sample_inputs : remote → result sample_inputs.
Variable read_set_inputs : remote → result set_inputs.

(** The local state of [patch_attributes] in its loop: the workspace, the
    variable [metadata] ([None] while it is unbound) and [task_counts]. *)
Record frame : Type := Frame {
  workspace : remote;
  metadata_var : option pyvalue;
  task_counts : gmap string nat;
}.

(** [update_entity_attributes], lines 1086-1125. *)
Definition update_entity_attributes (etype : string) (attrs : attrs_value)
    (st : remote) : result unit * remote :=
  let post attr_list :=
    (* both answers are only printed *)
    (Ok tt, (api_batch_update_entities st attr_list).2) in
  match attrs with
  | AttrsFrame rows =>
      post (map (λ row, EntityUpdate row.1 etype row.2) rows)
  | AttrsSeries attr items =>
      post (map (λ ij, EntityUpdate ij.1 etype [(attr, ij.2)]) items)
  | AttrsDict _ => (Raise ValueError, st)
  end.

Definition update_sample_attributes (sample_id : string)
    (attrs : attrs_value) (st : remote) : result unit * remote :=
  update_entity_attributes "sample" attrs st.

Definition update_sample_set_attributes (sample_set_id : string)
    (attrs : attrs_value) (st : remote) : result unit * remote :=
  update_entity_attributes "sample_set" attrs st.

(** [{output_map[k.split('.')[-1]]:t for k,t in outputs.items()}]. *)
Fixpoint workflow_attr (omap : gmap string string)
    (outs : list (string * string)) (attr : gmap string string)
  : result (gmap string string) :=
  match outs with
  | [] => Ok attr
  | (k, t) :: rest =>
      match omap !! last_piece "." k with
      | None => Raise KeyError
      | Some a => workflow_attr omap rest (<[a := t]> attr)
      end
  end.

(** [{output_map[i]:j for i,j in outputs.items()}]. *)
Fixpoint task_attr (omap : gmap string string)
    (outs : list (string * string)) (attr : gmap string string)
  : result (gmap string string) :=
  match outs with
  | [] => Ok attr
  | (i, j) :: rest =>
      match omap !! i with
      | None => Raise KeyError
      | Some a => task_attr omap rest (<[a := j]> attr)
      end
  end.

(** The test of line 537. *)
Definition workflow_wrote (m : metadata) (dry_run : bool) : bool :=
  match wf_outputs m with
  | Some outs => negb (length outs =? 0)%nat && negb dry_run
  | None => false
  end.

(** Line 545: one of the attributes the outputs map to is null in the row
    of the sample. *)
Definition some_null (omap : gmap string string)
    (row : gmap string string) (outs : list (string * string)) : bool :=
  existsb (λ kv, match omap !! kv.1 with
                 | Some a => bool_decide (row !! a = None)
                 | None => false
                 end) outs.

(** The loop over the tasks, lines 541-550. *)
Fixpoint patch_tasks (omap : gmap string string) (dry_run : bool)
    (sample_id : string) (row : gmap string string)
    (tasks : list (string * list attempt)) (f : frame)
  : result unit * frame :=
  match tasks with
  | [] => (Ok tt, f)
  | (task, attempts) :: rest =>
      match last attempts with
      | None => (Raise IndexError, f)
      | Some final =>
          match outputs final with
          | Some outs =>
              if forallb (λ kv, bool_decide (is_Some (omap !! kv.1))) outs
                 && some_null omap row outs
              then
                (* write to attributes *)
                let written :=
                  if negb dry_run then
                    match task_attr omap outs ∅ with
                    | Ok attr =>
                        update_sample_attributes sample_id (AttrsDict attr)
                                                 (workspace f)
                    | Raise e => (Raise e, workspace f)
                    end
                  else (Ok tt, workspace f) in
                match written.1 with
                | Ok _ =>
                    let t := last_piece "." task in
                    patch_tasks omap dry_run sample_id row rest
                      (Frame written.2 (metadata_var f)
                             (<[t := S (default 0%nat (task_counts f !! t))]>
                                (task_counts f)))
                | Raise e =>
                    (Raise e, Frame written.2 (metadata_var f) (task_counts f))
                end
              else patch_tasks omap dry_run sample_id row rest f
          | None => patch_tasks omap dry_run sample_id row rest f
          end
      end
  end.

(** The body of the [try], lines 536-550. *)
Definition patch_sample (inp : sample_inputs) (dry_run : bool)
    (sample_id : string) (row : gmap string string) (f : frame)
  : result unit * frame :=
  match sample_status_df inp !! sample_id with
  | None => (Raise KeyError, f)
  | Some rec =>
      match get_workflow_metadata
              (api_get_workflow_metadata (workspace f)
                 (Status.submission_id rec) (Status.workflow_id rec)) with
      | Raise e => (Raise e, f)
      | Ok v =>
          let f := Frame (workspace f) (Some v) (task_counts f) in
          match v with
          | PyResponse _ => (Raise TypeError, f)
          | PyJson m =>
              if workflow_wrote m dry_run then
                match workflow_attr (output_map inp)
                                    (default [] (wf_outputs m)) ∅ with
                | Ok attr =>
                    let written :=
                      update_sample_attributes sample_id (AttrsDict attr)
                                               (workspace f) in
                    (written.1,
                     Frame written.2 (metadata_var f) (task_counts f))
                | Raise e => (Raise e, f)
                end
              else
                patch_tasks (output_map inp) dry_run sample_id row
                            (calls m) f
          end
      end
  end.

(** The handler, lines 551-553: a message, then [print(metadata.json())]. *)
Definition report_failure (f : frame) : result unit :=
  match metadata_var f with
  | None => Raise UnboundLocalError
  | Some v => _ ← call_json v; Ok tt
  end.

(** The loop over the incomplete samples, lines 532-553. *)
Fixpoint patch_samples (inp : sample_inputs) (dry_run : bool)
    (rows : list (string * gmap string string)) (f : frame)
  : result unit * frame :=
  match rows with
  | [] => (Ok tt, f)
  | (sample_id, row) :: rest =>
      let tried := patch_sample inp dry_run sample_id row f in
      match tried.1 with
      | Ok _ => patch_samples inp dry_run rest tried.2
      | Raise _ =>
          match report_failure tried.2 with
          | Ok _ => patch_samples inp dry_run rest tried.2
          | Raise e => (Raise e, tried.2)
          end
      end
  end.

(** The loop over the sample sets, lines 573-578; no [try] here. *)
Fixpoint patch_sample_sets (inp : set_inputs) (dry_run : bool)
    (ids : list string) (st : remote) : result unit * remote :=
  match ids with
  | [] => (Ok tt, st)
  | sample_set_id :: rest =>
      match sample_set_status_df inp !! sample_set_id with
      | None => (Raise KeyError, st)
      | Some rec =>
          match get_workflow_metadata
                  (api_get_workflow_metadata st
                     (Status.submission_id rec) (Status.workflow_id rec)) with
          | Raise e => (Raise e, st)
          | Ok (PyResponse _) => (Raise TypeError, st)
          | Ok (PyJson m) =>
              if workflow_wrote m dry_run then
                match workflow_attr (set_output_map inp)
                                    (default [] (wf_outputs m)) ∅ with
                | Ok attr =>
                    let written :=
                      update_sample_set_attributes sample_set_id
                        (AttrsDict attr) st in
                    match written.1 with
                    | Ok _ => patch_sample_sets inp dry_run rest written.2
                    | Raise e => (Raise e, written.2)
                    end
                | Raise e => (Raise e, st)
                end
              else patch_sample_sets inp dry_run rest st
          end
      end
  end.

(** [patch_attributes], lines 497-580, on the workspace [st]: the counts it
    prints for each task, or the exception it ends with, and the workspace
    it leaves. *)
Definition patch_attributes (dry_run : bool) (entity : string)
    (st : remote) : result (gmap string nat) * remote :=
  if String.eqb entity "sample" then
    match read_sample_inputs st with
    | Raise e => (Raise e, st)
    | Ok inp =>
        let done := patch_samples inp dry_run (incomplete_df inp)
                                  (Frame st None ∅) in
        (_ ← done.1; Ok (task_counts done.2), workspace done.2)
    end
  else if String.eqb entity "sample_set" then
    match read_set_inputs st with
    | Raise e => (Raise e, st)
    | Ok inp =>
        if existsb (λ i, negb (String.eqb i "")) (error_ix inp) then
          let done := patch_sample_sets inp dry_run (set_incomplete inp) st in
          (_ ← done.1; Ok ∅, done.2)
        else (Ok ∅, st)
    end
  else (Ok ∅, st).

(** The variable [metadata] does not hold a response. *)
Definition holds_no_response (f : frame) : Prop :=
  ∀ r, metadata_var f ≠ Some (PyResponse r).

(** ** Properties *)

Lemma get_workflow_metadata_parsed answer v :
  get_workflow_metadata answer = Ok v → ∃ m, v = PyJson m.
Proof.
  unfold get_workflow_metadata. destruct answer as [r|e]; cbn; [|done].
  destruct (status_code r =? 200)%Z; cbn; [|done].
  intros [= <-]. by eexists.
Qed.

Lemma report_failure_raises f :
  holds_no_response f →
  report_failure f = Raise UnboundLocalError ∨
  report_failure f = Raise AttributeError.
Proof.
  unfold holds_no_response, report_failure. intros Hf.
  destruct (metadata_var f) as [[r|m]|]; [|by right|by left].
  by destruct (Hf r).
Qed.

Lemma patch_tasks_metadata omap dry_run sample_id row tasks f :
  metadata_var (patch_tasks omap dry_run sample_id row tasks f).2
  = metadata_var f.
Proof.
  revert f. induction tasks as [|[task attempts] rest IH]; intros f; cbn;
    [done|].
  destruct (last attempts) as [final|]; [|done].
  destruct (outputs final) as [outs|]; [|apply IH].
  destruct (_ && _); [|apply IH].
  match goal with |- context [match ?w.1 with _ => _ end] =>
    destruct w.1 end; [by rewrite IH|done].
Qed.

Lemma patch_sample_no_response inp dry_run sample_id row f :
  holds_no_response f →
  holds_no_response (patch_sample inp dry_run sample_id row f).2.
Proof.
  intros Hf. unfold patch_sample.
  destruct (sample_status_df inp !! sample_id) as [rec|]; [|done].
  destruct (get_workflow_metadata _) as [v|e] eqn:Hget; [|done].
  apply get_workflow_metadata_parsed in Hget as [m ->].
  destruct (workflow_wrote m dry_run).
  - destruct (workflow_attr _ _ _); intros r; cbn; discriminate.
  - intros r. rewrite patch_tasks_metadata. cbn. discriminate.
Qed.

Lemma patch_samples_app inp dry_run rows1 rows2 f :
  patch_samples inp dry_run (rows1 ++ rows2) f
  = match (patch_samples inp dry_run rows1 f).1 with
    | Ok _ =>
        patch_samples inp dry_run rows2 (patch_samples inp dry_run rows1 f).2
    | Raise e => (Raise e, (patch_samples inp dry_run rows1 f).2)
    end.
Proof.
  revert f. induction rows1 as [|[sample_id row] rows1 IH]; intros f; cbn;
    [done|].
  destruct (patch_sample inp dry_run sample_id row f).1; [apply IH|].
  destruct (report_failure _); [apply IH|done].
Qed.

Lemma patch_samples_no_response inp dry_run rows f :
  holds_no_response f →
  holds_no_response (patch_samples inp dry_run rows f).2.
Proof.
  revert f. induction rows as [|[sample_id row] rows IH]; intros f Hf; cbn;
    [done|].
  pose proof (patch_sample_no_response inp dry_run sample_id row f Hf).
  destruct (patch_sample inp dry_run sample_id row f).1; [by apply IH|].
  destruct (report_failure _); [by apply IH|done].
Qed.

(** C4, on the code. When the body of the [try] raises for a sample, the
    handler raises in its turn at [metadata.json()]: [metadata] is unbound
    or holds the parsed document. The call ends there with that exception
    and the samples after it are not looked at. *)
Theorem failure_aborts_batch inp dry_run st
    (before after : list (string * gmap string string)) sample_id row f e :
  patch_samples inp dry_run before (Frame st None ∅) = (Ok tt, f) →
  (patch_sample inp dry_run sample_id row f).1 = Raise e →
  ∃ e',
    patch_samples inp dry_run (before ++ (sample_id, row) :: after)
                  (Frame st None ∅)
    = (Raise e', (patch_sample inp dry_run sample_id row f).2) ∧
    (e' = UnboundLocalError ∨ e' = AttributeError).
Proof.
  intros Hbefore Hraise. rewrite patch_samples_app, Hbefore. cbn.
  rewrite Hraise.
  assert (Hf : holds_no_response f).
  { pose proof (patch_samples_no_response inp dry_run before
                  (Frame st None ∅)) as Hinv.
    rewrite Hbefore in Hinv. apply Hinv. intros r. cbn. discriminate. }
  destruct (report_failure_raises _
              (patch_sample_no_response inp dry_run sample_id row f Hf))
    as [-> | ->]; eexists; (split; [done|]); [by left|by right].
Qed.

Lemma patch_tasks_dry_run omap sample_id row tasks f :
  workspace (patch_tasks omap true sample_id row tasks f).2 = workspace f.
Proof.
  revert f. induction tasks as [|[task attempts] rest IH]; intros f; cbn;
    [done|].
  destruct (last attempts) as [final|]; [|done].
  destruct (outputs final) as [outs|]; [|apply IH].
  destruct (_ && _); [|apply IH]. by rewrite IH.
Qed.

Lemma workflow_wrote_dry_run m : workflow_wrote m true = false.
Proof.
  unfold workflow_wrote. destruct (wf_outputs m); [|done].
  apply andb_false_r.
Qed.

Lemma patch_sample_dry_run inp sample_id row f :
  workspace (patch_sample inp true sample_id row f).2 = workspace f.
Proof.
  unfold patch_sample.
  destruct (sample_status_df inp !! sample_id) as [rec|]; [|done].
  destruct (get_workflow_metadata _) as [[r|m]|e]; [done| |done].
  rewrite workflow_wrote_dry_run. by rewrite patch_tasks_dry_run.
Qed.

Lemma patch_samples_dry_run inp rows f :
  workspace (patch_samples inp true rows f).2 = workspace f.
Proof.
  revert f. induction rows as [|[sample_id row] rows IH]; intros f; cbn;
    [done|].
  pose proof (patch_sample_dry_run inp sample_id row f) as Hstep.
  destruct (patch_sample inp true sample_id row f).1.
  - by rewrite IH.
  - destruct (report_failure _); [by rewrite IH|done].
Qed.

Lemma patch_sample_sets_dry_run inp ids st :
  (patch_sample_sets inp true ids st).2 = st.
Proof.
  induction ids as [|sample_set_id rest IH]; cbn; [done|].
  destruct (sample_set_status_df inp !! sample_set_id) as [rec|]; [|done].
  destruct (get_workflow_metadata _) as [[r|m]|e]; [done| |done].
  by rewrite workflow_wrote_dry_run.
Qed.

(** C6. With [dry_run=True] the workspace [patch_attributes] leaves is the
    one it was given, whatever the entity kind and whether the call ends
    with counts or with an exception; so a second dry run starts from the
    same workspace and reports what the first one reported. *)
Theorem dry_run_leaves_workspace entity st :
  (patch_attributes true entity st).2 = st ∧
  (patch_attributes true entity (patch_attributes true entity st).2).1
  = (patch_attributes true entity st).1.
Proof.
  assert (Hsame : (patch_attributes true entity st).2 = st).
  { unfold patch_attributes. destruct (String.eqb entity "sample").
    - destruct (read_sample_inputs st) as [inp|e]; [|done]. cbn.
      by rewrite patch_samples_dry_run.
    - destruct (String.eqb entity "sample_set"); [|done].
      destruct (read_set_inputs st) as [inp|e]; [|done].
      destruct (existsb _ _); [|done]. cbn.
      apply patch_sample_sets_dry_run. }
  split; [done|]. by rewrite Hsame.
Qed.

(** ** Further properties of the patching *)

Lemma patch_tasks_workspace omap dry_run sample_id row tasks f :
  workspace (patch_tasks omap dry_run sample_id row tasks f).2 = workspace f.
Proof.
  revert f. induction tasks as [|[task attempts] rest IH]; intros f; cbn;
    [done|].
  destruct (last attempts) as [final|]; [|done].
  destruct (outputs final) as [outs|]; [|apply IH].
  destruct (_ && _); [|apply IH].
  destruct dry_run; cbn; [by rewrite IH|].
  by destruct (task_attr omap outs ∅).
Qed.

Lemma patch_sample_workspace inp dry_run sample_id row f :
  workspace (patch_sample inp dry_run sample_id row f).2 = workspace f.
Proof.
  unfold patch_sample.
  destruct (sample_status_df inp !! sample_id) as [rec|]; [|done].
  destruct (get_workflow_metadata _) as [[r|m]|e]; [done| |done].
  destruct (workflow_wrote m dry_run).
  - by destruct (workflow_attr _ _ _).
  - by rewrite patch_tasks_workspace.
Qed.

Lemma patch_samples_workspace inp dry_run rows f :
  workspace (patch_samples inp dry_run rows f).2 = workspace f.
Proof.
  revert f. induction rows as [|[sample_id row] rows IH]; intros f; cbn;
    [done|].
  pose proof (patch_sample_workspace inp dry_run sample_id row f) as Hstep.
  destruct (patch_sample inp dry_run sample_id row f).1.
  - by rewrite IH.
  - destruct (report_failure _); [by rewrite IH|done].
Qed.

Lemma patch_sample_sets_workspace inp dry_run ids st :
  (patch_sample_sets inp dry_run ids st).2 = st.
Proof.
  induction ids as [|sample_set_id rest IH]; cbn; [done|].
  destruct (sample_set_status_df inp !! sample_set_id) as [rec|]; [|done].
  destruct (get_workflow_metadata _) as [[r|m]|e]; [done| |done].
  destruct (workflow_wrote m dry_run); [|done].
  by destruct (workflow_attr _ _ _).
Qed.

(** X10. [patch_attributes] never requests a batch update, in a dry run or
    in a real one: what it hands to [update_sample_attributes] and
    [update_sample_set_attributes] is a [dict], which
    [update_entity_attributes] refuses with a [ValueError] before any
    request. The workspace it leaves is the one it was given. *)
Theorem patch_attributes_never_writes dry_run entity st :
  (patch_attributes dry_run entity st).2 = st.
Proof.
  unfold patch_attributes. destruct (String.eqb entity "sample").
  - destruct (read_sample_inputs st) as [inp|e]; [|done]. cbn.
    by rewrite patch_samples_workspace.
  - destruct (String.eqb entity "sample_set"); [|done].
    destruct (read_set_inputs st) as [inp|e]; [|done].
    destruct (existsb _ _); [|done]. cbn.
    apply patch_sample_sets_workspace.
Qed.

Local Arguments workflow_attr : simpl never.

(** X11. In a real run ([dry_run=False]), when the first incomplete sample
    has a workflow whose metadata are fetched and carry outputs, the call
    ends there with an [AttributeError]: the update raises, and so does the
    handler. Nothing has been written and no other sample is looked at. *)
Theorem real_run_stops_at_outputs st inp sample_id row rest rec r outs :
  read_sample_inputs st = Ok inp →
  incomplete_df inp = (sample_id, row) :: rest →
  sample_status_df inp !! sample_id = Some rec →
  api_get_workflow_metadata st (Status.submission_id rec)
                            (Status.workflow_id rec) = Ok r →
  status_code r = 200%Z →
  wf_outputs (json r) = Some outs →
  outs ≠ [] →
  patch_attributes false "sample" st = (Raise AttributeError, st).
Proof.
  intros Hread Hrows Hrec Hfetch H200 Houts Hne.
  unfold patch_attributes. cbn. rewrite Hread, Hrows. cbn.
  unfold patch_sample. cbn. rewrite Hrec, Hfetch. cbn. rewrite H200. cbn.
  unfold workflow_wrote. rewrite Houts.
  destruct outs as [|o outs']; [done|]. cbn.
  by destruct (workflow_attr (output_map inp) (o :: outs') ∅).
Qed.

End patch_attributes.

(** A frame or a series given to [update_entity_attributes] is posted. *)
Example series_update_is_posted :
  update_entity_attributes update_log log_batch_update "sample"
    (AttrsSeries "vcf_path" [("S2", "gs://bucket/S2.vcf")]) []
  = (Ok tt, [[EntityUpdate "S2" "sample" [("vcf_path", "gs://bucket/S2.vcf")]]]).
Proof. reflexivity. Qed.

(** The dry run over S2 alone counts one candidate for VariantCall. *)
Example dry_run_counts_variant_call :
  let done := patch_samples update_log log_metadata log_batch_update
                two_samples true [("S2", ∅)] (Frame update_log [] None ∅) in
  done.1 = Ok tt ∧ task_counts update_log done.2 !! "VariantCall" = Some 1%nat.
Proof. split; reflexivity. Qed.

Lemma failure_aborts_batch_witness :
  ∃ e',
    patch_samples update_log log_metadata log_batch_update two_samples true
      ([] ++ ("S1", ∅) :: [("S2", ∅)]) (Frame update_log [] None ∅)
    = (Raise e',
       (patch_sample update_log log_metadata log_batch_update two_samples
          true "S1" ∅ (Frame update_log [] None ∅)).2) ∧
    (e' = UnboundLocalError ∨ e' = AttributeError).
Proof.
  apply (failure_aborts_batch update_log log_metadata log_batch_update
           two_samples true [] [] [("S2", ∅)] "S1" ∅
           (Frame update_log [] None ∅) AssertionError).
  - reflexivity.
  - reflexivity.
Defined.

Lemma real_run_stops_at_outputs_witness :
  patch_attributes update_log log_metadata_succeeded log_batch_update
                   (λ _, Ok one_sample) (λ _, Ok no_sets) false "sample" []
  = (Raise AttributeError, []).
Proof.
  apply (real_run_stops_at_outputs update_log log_metadata_succeeded
           log_batch_update (λ _, Ok one_sample) (λ _, Ok no_sets)
           [] one_sample "S3" ∅ []
           (Status.EntityRecord "Succeeded" 100 "sub-3" "wgs_pipeline" "wf-3")
           (Response 200 succeeded_run)
           [("wgs.output_vcf", "gs://bucket/S3.vcf")]).
  - reflexivity.
  - reflexivity.
  - reflexivity.
  - reflexivity.
  - reflexivity.
  - reflexivity.
  - discriminate.
Defined.

End Patch.

(** * Purging of outdated files *)

Module Purge.

(** [s.endswith(suffix)]. *)
Fixpoint ends_with (suffix s : string) : bool :=
  String.eqb suffix s ||
  match s with
  | EmptyString => false
  | String _ s' => ends_with suffix s'
  end.

(** [s.split(sep, 1)[1]] for a one-character separator: what follows the
    first [sep]; no such item when [s] has no [sep]. *)
Fixpoint after_first (sep : ascii) (s : string) : result string :=
  match s with
  | EmptyString => Raise IndexError
  | String c s' => if Ascii.eqb c sep then Ok s' else after_first sep s'
  end.

(** [os.path.split(i)[1].split('.',1)[1]], line 1065. *)
Definition file_ext (i : string) : result string :=
  after_first "." (last_piece "/" i).

Fixpoint file_exts (paths : list string) : result (list string) :=
  match paths with
  | [] => Ok []
  | i :: rest => e ← file_ext i; es ← file_exts rest; Ok (e :: es)
  end.

(** [ext = np.unique(exts); assert len(ext)==1; ext = ext[0]]. *)
Definition single_ext (exts : list string) : result string :=
  match exts with
  | [] => Raise AssertionError
  | e :: rest =>
      _ ← py_assert (forallb (String.eqb e) rest);
      Ok e
  end.

(** The values of a column without null cell. *)
Definition cell_values (column : list (option string)) : list string :=
  omap id column.

(** *** A bucket to run the definitions on *)

(** Lower case of the letters A to Z. *)
Definition lower_ascii (c : ascii) : ascii :=
  let n := nat_of_ascii c in
  if ((65 <=? n) && (n <=? 90))%nat then ascii_of_nat (n + 32) else c.

Fixpoint lower_letters (s : string) : string :=
  match s with
  | EmptyString => EmptyString
  | String c s' => String (lower_ascii c) (lower_letters s')
  end.

(** The bucket holds the file of sample S1 and the file of an earlier
    run; the user first types something else, then Y. *)
Definition bucket_listing : list string :=
  ["gs://bkt/run1/S1.bam"; "gs://bkt/run2/S1.bam"; "gs://bkt/run2/S1.log"].

Definition bam_table : gmap string (list (option string)) :=
  {[ "bam" := [Some "gs://bkt/run2/S1.bam"] ]}.

Definition typed (n : nat) : string :=
  match n with
  | O => "maybe"
  | _ => "Y"
  end.

Section purge_outdated.

(** The answer of the workspace request, with the bucket name it carries;
    the listing of a bucket ([gs_list_bucket_files], of the package's core
    module); the sample table [get_samples] gives, a column being the list
    of its cells; [str.lower]; the lines typed at the prompt, in order. *)
Variable api_get_workspace : response string.
Variable gs_list_bucket_files : string → result (list string).
Variable get_samples : result (gmap string (list (option string))).
Variable lower : string → string.
Variable answers : nat → string.

(** [get_bucket_id], lines 136-142. *)
Definition get_bucket_id : result string :=
  let r := api_get_workspace in
  _ ← py_assert (status_code r =? 200)%Z;
  Ok (json r).

(** The prompt of lines 1076-1079, from the [n]-th line typed on; [fuel]
    bounds the turns taken and [None] says the loop is still asking. *)
Fixpoint ask (n fuel : nat) : option string :=
  match fuel with
  | O => None
  | S fuel' =>
      let s := lower (answers n) in
      if String.eqb s "n" || String.eqb s "y" then Some s
      else ask (S n) fuel'
  end.

(** Lines 1050-1069: the files to purge. *)
Definition purge_paths (attribute : string)
    (bucket_files : option (list string))
    (samples_df : option (gmap string (list (option string))))
    (ext : option string) : result (list string) :=
  bucket_files ←
    match bucket_files with
    | Some files => Ok files
    | None => bucket_id ← get_bucket_id; gs_list_bucket_files bucket_id
    end;
  samples_df ←
    match samples_df with
    | Some df => Ok df
    | None => get_samples
    end;
  match samples_df !! attribute with
  | None => Raise ValueError
  | Some column =>
      (* make sure all samples have attribute set *)
      _ ← py_assert (forallb (λ c, bool_decide (is_Some c)) column);
      ext ←
        match ext with
        | Some e => Ok e
        | None => exts ← file_exts (cell_values column); single_ext exts
        end;
      Ok (filter (λ i, ends_with ext i = true ∧ i ∉ cell_values column)
                 bucket_files)
  end.

(** [purge_outdated], lines 1046-1083: the paths handed to [gs_delete]
    (none when nothing is deleted), or the exception, or [None] while the
    prompt is still asking. *)
Definition purge_outdated (attribute : string)
    (bucket_files : option (list string))
    (samples_df : option (gmap string (list (option string))))
    (ext : option string) (fuel : nat) : option (result (list string)) :=
  match purge_paths attribute bucket_files samples_df ext with
  | Raise e => Some (Raise e)
  | Ok [] => Some (Ok [])
  | Ok paths =>
      match (bucket_id ← get_bucket_id;
             py_assert (forallb (String.prefix ("gs://" ++ bucket_id)) paths))
      with
      | Raise e => Some (Raise e)
      | Ok _ =>
          match ask 0 fuel with
          | None => None
          | Some s => Some (Ok (if String.eqb s "y" then paths else []))
          end
      end
  end.

(** ** Properties *)

Lemma ends_with_spec (suffix s : string) :
  ends_with suffix s = true ↔ ∃ a, s = a ++ suffix.
Proof.
  induction s as [|c s IH]; cbn [ends_with].
  - rewrite orb_false_r, String.eqb_eq. split.
    + intros ->. by exists "".
    + intros [a Ha]. destruct a; [done|discriminate].
  - rewrite orb_true_iff, String.eqb_eq, IH. split.
    + intros [->|[a ->]]; [by exists ""|]. by exists (String c a).
    + intros [a Ha]. destruct a as [|x a]; [by left|].
      right. rewrite append_cons in Ha. injection Ha as _ ->. by exists a.
Qed.

Lemma ask_spec n fuel s :
  ask n fuel = Some s →
  ∃ k, (k < fuel)%nat ∧ lower (answers (n + k)) = s ∧
       (s = "n" ∨ s = "y") ∧
       ∀ m, (m < k)%nat →
            lower (answers (n + m)) ≠ "n" ∧ lower (answers (n + m)) ≠ "y".
Proof.
  revert n. induction fuel as [|fuel IH]; intros n; cbn [ask]; [done|].
  destruct (String.eqb_spec (lower (answers n)) "n") as [Hn|Hn].
  { cbn. intros [= <-]. exists 0%nat. rewrite Nat.add_0_r.
    split; [lia|]. split; [done|]. split; [by left|]. intros m Hm. lia. }
  destruct (String.eqb_spec (lower (answers n)) "y") as [Hy|Hy].
  { cbn. intros [= <-]. exists 0%nat. rewrite Nat.add_0_r.
    split; [lia|]. split; [done|]. split; [by right|]. intros m Hm. lia. }
  cbn. intros Hask. destruct (IH _ Hask) as (k & Hk & Hs & Hyn & Hbefore).
  exists (S k). split; [lia|]. rewrite <- Nat.add_succ_comm.
  split; [done|]. split; [done|]. intros [|m] Hm.
  - by rewrite Nat.add_0_r.
  - rewrite <- Nat.add_succ_comm. apply Hbefore. lia.
Qed.

Lemma file_exts_spec vs es :
  file_exts vs = Ok es → Forall2 (λ v e, file_ext v = Ok e) vs es.
Proof.
  revert es. induction vs as [|v vs IH]; intros es; cbn.
  - intros [= <-]. constructor.
  - destruct (file_ext v) as [e|] eqn:He; [|done]. cbn.
    destruct (file_exts vs) as [es'|]; [|done]. cbn. intros [= <-].
    constructor; [done|by apply IH].
Qed.

Lemma single_ext_spec es e x :
  single_ext es = Ok e → x ∈ es → x = e.
Proof.
  destruct es as [|e0 rest]; [done|]. cbn.
  destruct (forallb (String.eqb e0) rest) eqn:Hall; [|done]. cbn.
  intros [= <-] Hx. apply elem_of_cons in Hx as [->|Hx]; [done|].
  rewrite forallb_forall in Hall. symmetry. apply String.eqb_eq, Hall.
  by apply list_elem_of_In.
Qed.

Lemma cell_values_spec column v : v ∈ cell_values column ↔ Some v ∈ column.
Proof.
  unfold cell_values. rewrite list_elem_of_omap. split.
  - intros (c & Hc & Hv). cbn in Hv. by subst c.
  - intros Hv. by exists (Some v).
Qed.

(** What lines 1050-1069 give when they raise nothing. *)
Lemma purge_paths_spec attribute bucket_files samples_df ext paths :
  purge_paths attribute bucket_files samples_df ext = Ok paths →
  ∃ files df column e,
    (bucket_files = Some files ∨
     bucket_files = None ∧
     ∃ b, get_bucket_id = Ok b ∧ gs_list_bucket_files b = Ok files) ∧
    (samples_df = Some df ∨ samples_df = None ∧ get_samples = Ok df) ∧
    df !! attribute = Some column ∧
    (None ∉ column) ∧
    match ext with
    | Some e' => e = e'
    | None => ∀ v, Some v ∈ column → file_ext v = Ok e
    end ∧
    paths = filter (λ i, ends_with e i = true ∧ i ∉ cell_values column) files.
Proof.
  unfold purge_paths. intros Hrun.
  assert (∃ files,
            (bucket_files = Some files ∨
             bucket_files = None ∧
             ∃ b, get_bucket_id = Ok b ∧ gs_list_bucket_files b = Ok files) ∧
            match bucket_files with
            | Some files => Ok files
            | None => bucket_id ← get_bucket_id; gs_list_bucket_files bucket_id
            end = Ok files) as (files & Hfiles & Heq).
  { destruct bucket_files as [files|]; [exists files; split; [by left|done]|].
    destruct get_bucket_id as [b|]; [|done]. cbn in *.
    destruct (gs_list_bucket_files b) as [files|] eqn:Hlist; [|done].
    exists files. split; [|done]. right. split; [done|]. by exists b. }
  rewrite Heq in Hrun. cbn in Hrun. clear Heq.
  assert (∃ df,
            (samples_df = Some df ∨ samples_df = None ∧ get_samples = Ok df) ∧
            match samples_df with
            | Some df => Ok df
            | None => get_samples
            end = Ok df) as (df & Hdf & Heq).
  { destruct samples_df as [df|]; [exists df; split; [by left|done]|].
    destruct get_samples as [df|]; [|done]. exists df. split; [by right|done]. }
  rewrite Heq in Hrun. cbn in Hrun. clear Heq.
  destruct (df !! attribute) as [column|] eqn:Hcol; [|done].
  destruct (forallb _ column) eqn:Hall; [|done]. cbn in Hrun.
  assert (Hnull : None ∉ column).
  { intros Hin. rewrite forallb_forall in Hall.
    apply list_elem_of_In, Hall in Hin. by apply bool_decide_eq_true_1 in Hin
      as [? ?]. }
  destruct ext as [e|].
  - cbn in Hrun. injection Hrun as <-. by exists files, df, column, e.
  - destruct (file_exts (cell_values column)) as [es|] eqn:Hes; [|done].
    cbn in Hrun. destruct (single_ext es) as [e|] eqn:He; [|done].
    cbn in Hrun. injection Hrun as <-. exists files, df, column, e.
    repeat (split; [done|]). split; [|done].
    intros v Hv. apply cell_values_spec in Hv.
    apply file_exts_spec in Hes.
    apply list_elem_of_lookup in Hv as [i Hi].
    destruct (Forall2_lookup_l _ _ _ _ _ Hes Hi) as (x & Hx & Hvx).
    rewrite Hvx. f_equal. apply (single_ext_spec es); [done|].
    by apply list_elem_of_lookup_2 in Hx.
Qed.

(** X12. A path handed to [gs_delete] is a file of the bucket listing that
    no sample has as the value of the attribute, that ends with the
    extension and that starts with the [gs://] address of the workspace
    bucket; and there is a deletion only when every sample has the
    attribute set. *)
Theorem purge_deletes_only_outdated attribute bucket_files samples_df ext
    fuel deleted p :
  purge_outdated attribute bucket_files samples_df ext fuel
  = Some (Ok deleted) →
  p ∈ deleted →
  ∃ files df column e,
    (bucket_files = Some files ∨
     bucket_files = None ∧
     ∃ b, get_bucket_id = Ok b ∧ gs_list_bucket_files b = Ok files) ∧
    (samples_df = Some df ∨ samples_df = None ∧ get_samples = Ok df) ∧
    df !! attribute = Some column ∧
    (None ∉ column) ∧
    match ext with
    | Some e' => e = e'
    | None => ∀ v, Some v ∈ column → file_ext v = Ok e
    end ∧
    p ∈ files ∧
    (Some p ∉ column) ∧
    (∃ a, p = a ++ e) ∧
    (∃ b a, get_bucket_id = Ok b ∧ p = ("gs://" ++ b) ++ a).
Proof.
  unfold purge_outdated. intros Hrun Hp.
  destruct (purge_paths attribute bucket_files samples_df ext)
    as [paths|] eqn:Hpaths; [|done].
  destruct paths as [|p0 paths].
  { injection Hrun as <-. by apply elem_of_nil in Hp. }
  destruct get_bucket_id as [b|] eqn:Hb; [|done].
  cbn [mbind result_bind] in Hrun.
  destruct (forallb (String.prefix ("gs://" ++ b)) (p0 :: paths)) eqn:Hstart;
    [|done].
  cbn [py_assert] in Hrun.
  destruct (ask 0 fuel) as [s|]; [|done].
  destruct (String.eqb s "y"); injection Hrun as <-;
    [|by apply elem_of_nil in Hp].
  destruct (purge_paths_spec _ _ _ _ _ Hpaths)
    as (files & df & column & e & Hfiles & Hdf & Hcol & Hnull & Hext & Heq).
  rewrite Heq in Hp. apply list_elem_of_filter in Hp as [[Hend Hnot] Hin].
  rewrite <- Hb. exists files, df, column, e. repeat (split; [done|]).
  split; [intros Hc; by apply Hnot, cell_values_spec|].
  split; [by apply ends_with_spec|].
  rewrite forallb_forall in Hstart.
  assert (Hpre : String.prefix ("gs://" ++ b) p = true).
  { apply (Hstart p). apply list_elem_of_In. rewrite Heq.
    apply list_elem_of_filter. split; [split|]; done. }
  apply prefix_spec in Hpre as [a Ha]. by exists b, a.
Qed.

(** X13. Files are handed to [gs_delete] only after the user has answered
    y: the first line typed that reads y or n, whatever its case, reads
    y. *)
Theorem purge_asks_first attribute bucket_files samples_df ext fuel deleted :
  purge_outdated attribute bucket_files samples_df ext fuel
  = Some (Ok deleted) →
  deleted ≠ [] →
  ∃ n, (n < fuel)%nat ∧ lower (answers n) = "y" ∧
       ∀ m, (m < n)%nat →
            lower (answers m) ≠ "n" ∧ lower (answers m) ≠ "y".
Proof.
  unfold purge_outdated. intros Hrun Hne.
  destruct (purge_paths attribute bucket_files samples_df ext)
    as [[|p0 paths]|]; [by injection Hrun as <-| |done].
  destruct (_ ← get_bucket_id; _) as [[]|]; [|done].
  destruct (ask 0 fuel) as [s|] eqn:Hask; [|done].
  destruct (String.eqb_spec s "y") as [->|Hs]; [|by injection Hrun as <-].
  destruct (ask_spec _ _ _ Hask) as (k & Hk & Hy & _ & Hbefore).
  exists k. split; [done|]. split; [done|]. done.
Qed.

End purge_outdated.

Lemma purge_deletes_only_outdated_witness :
  ∃ files df column e,
    (Some bucket_listing = Some files ∨
     Some bucket_listing = None ∧
     ∃ b, get_bucket_id (Response 200 "bkt") = Ok b ∧
          (λ _, Ok bucket_listing) b = Ok files) ∧
    (Some bam_table = Some df ∨
     Some bam_table = None ∧ Ok bam_table = Ok df) ∧
    df !! "bam" = Some column ∧
    (None ∉ column) ∧
    (∀ v, Some v ∈ column → file_ext v = Ok e) ∧
    "gs://bkt/run1/S1.bam" ∈ files ∧
    (Some "gs://bkt/run1/S1.bam" ∉ column) ∧
    (∃ a, "gs://bkt/run1/S1.bam" = a ++ e) ∧
    (∃ b a, get_bucket_id (Response 200 "bkt") = Ok b ∧
            "gs://bkt/run1/S1.bam" = ("gs://" ++ b) ++ a).
Proof.
  apply (purge_deletes_only_outdated (Response 200 "bkt")
           (λ _, Ok bucket_listing) (Ok bam_table) lower_letters typed
           "bam" (Some bucket_listing) (Some bam_table) None 5
           ["gs://bkt/run1/S1.bam"] "gs://bkt/run1/S1.bam").
  - vm_compute. reflexivity.
  - by left.
Defined.

Lemma purge_asks_first_witness :
  ∃ n, (n < 5)%nat ∧ lower_letters (typed n) = "y" ∧
       ∀ m, (m < n)%nat →
            lower_letters (typed m) ≠ "n" ∧ lower_letters (typed m) ≠ "y".
Proof.
  apply (purge_asks_first (Response 200 "bkt")
           (λ _, Ok bucket_listing) (Ok bam_table) lower_letters typed
           "bam" (Some bucket_listing) (Some bam_table) None 5
           ["gs://bkt/run1/S1.bam"]).
  - vm_compute. reflexivity.
  - discriminate.
Defined.

End Purge.

(** * Pairs of tumor and normal samples *)

Module Pairs.

(** A row of the sample table: the index, the participant and the
    [sample_type] cell ([None] when it is null). *)
Record sample_row : Type := SampleRow {
  sample_id : string;
  participant : string;
  sample_type : option string;
}.

(** A row of [pair_df]. *)
Record pair_row : Type := PairRow {
  pair_id : string;
  case_sample : string;
  control_sample : string;
  pair_participant : string;
}.

(** [row['sample_type'] == 'Normal']. *)
Definition is_normal (r : sample_row) : bool :=
  bool_decide (sample_type r = Some "Normal").

(** [df['participant'][df.index == s][0]], line 291. *)
Definition participant_of (df : list sample_row) (s : string)
  : result string :=
  match filter (λ r, sample_id r = s) df with
  | r :: _ => Ok (participant r)
  | [] => Raise IndexError
  end.

(** The pairs of the normal sample [s], lines 291-299. *)
Definition pairs_of_normal (df : list sample_row) (s : string)
  : result (list pair_row) :=
  patient ← participant_of df s;
  Ok (map (λ r, PairRow (sample_id r ++ "-" ++ s) (sample_id r) s patient)
          (filter (λ r, participant r = patient ∧ is_normal r = false) df)).

(** The loop of line 290. *)
Fixpoint pairs_of_normals (df : list sample_row) (normal_samples : list string)
  : result (list pair_row) :=
  match normal_samples with
  | [] => Ok []
  | s :: rest =>
      pairs ← pairs_of_normal df s;
      more ← pairs_of_normals df rest;
      Ok (pairs ++ more)%list
  end.

(** Lines 283-305: the rows of [pair_df]. *)
Definition pair_rows (df : list sample_row) : result (list pair_row) :=
  let normal_samples :=
    map sample_id (filter (λ r, is_normal r = true) df) in
  pairs_of_normals df normal_samples.

(** *** Three samples of one participant and one of another *)

Definition four_samples : list sample_row :=
  [SampleRow "P1-N" "P1" (Some "Normal");
   SampleRow "P1-T" "P1" (Some "Tumor");
   SampleRow "P1-M" "P1" None;
   SampleRow "P2-T" "P2" (Some "Tumor")].

Section make_pairs.

(** The sample table, whole or of a set, and the status of the answer to
    the upload of the pairs. *)
Variable get_samples : result (list sample_row).
Variable get_sample_attributes_in_set : string → result (list sample_row).
Variable api_upload_entities_tsv : list pair_row → Z.

(** [make_pairs], lines 272-314; the result is the table that was
    uploaded. *)
Definition make_pairs (sample_set_id : option string)
  : result (list pair_row) :=
  df ← match sample_set_id with
       | None => get_samples
       | Some set => get_sample_attributes_in_set set
       end;
  pair_df ← pair_rows df;
  if (api_upload_entities_tsv pair_df =? 200)%Z then Ok pair_df
  else Raise ValueError.

(** ** Properties *)

Lemma same_id_same_row (df : list sample_row) r1 r2 :
  NoDup (map sample_id df) → r1 ∈ df → r2 ∈ df →
  sample_id r1 = sample_id r2 → r1 = r2.
Proof.
  intros Hnd H1 H2 Heq.
  induction df as [|r df IH]; [by apply elem_of_nil in H1|].
  cbn in Hnd. apply NoDup_cons in Hnd as [Hr Hnd].
  apply elem_of_cons in H1 as [->|H1];
    apply elem_of_cons in H2 as [->|H2]; [done| | |by apply IH].
  - destruct Hr. rewrite Heq. apply list_elem_of_In, in_map.
    by apply list_elem_of_In.
  - destruct Hr. rewrite <- Heq. apply list_elem_of_In, in_map.
    by apply list_elem_of_In.
Qed.

Lemma participant_of_row df rn :
  NoDup (map sample_id df) → rn ∈ df →
  participant_of df (sample_id rn) = Ok (participant rn).
Proof.
  intros Hnd Hin. unfold participant_of.
  destruct (filter (λ r, sample_id r = sample_id rn) df) as [|r l] eqn:Hf.
  - exfalso. eapply (filter_nil_not_elem_of (λ r, sample_id r = sample_id rn));
      [exact Hf|reflexivity|exact Hin].
  - assert (Hr : r ∈ filter (λ r, sample_id r = sample_id rn) df)
      by (rewrite Hf; by left).
    apply list_elem_of_filter in Hr as [Hid Hr].
    by rewrite (same_id_same_row df r rn Hnd Hr Hin Hid).
Qed.

Lemma pairs_of_normals_spec df normal_samples :
  NoDup (map sample_id df) →
  (∀ s, s ∈ normal_samples → ∃ rn, rn ∈ df ∧ sample_id rn = s) →
  ∃ table,
    pairs_of_normals df normal_samples = Ok table ∧
    ∀ p, p ∈ table ↔
         ∃ rc rn, rc ∈ df ∧ rn ∈ df ∧ sample_id rn ∈ normal_samples ∧
                  is_normal rc = false ∧
                  participant rc = participant rn ∧
                  p = PairRow (sample_id rc ++ "-" ++ sample_id rn)
                              (sample_id rc) (sample_id rn) (participant rn).
Proof.
  intros Hnd. induction normal_samples as [|s rest IH]; intros Hrows.
  { exists []. split; [done|]. intros p. split.
    - intros Hp. by apply elem_of_nil in Hp.
    - intros (rc & rn & _ & _ & Hin & _). by apply elem_of_nil in Hin. }
  destruct IH as (more & Hmore & Hspec).
  { intros s' Hs'. apply Hrows. by right. }
  destruct (Hrows s) as (rs & Hrs & <-); [by left|].
  cbn [pairs_of_normals]. unfold pairs_of_normal.
  rewrite (participant_of_row df rs Hnd Hrs). cbn [mbind result_bind].
  rewrite Hmore. cbn [mbind result_bind].
  eexists. split; [done|]. intros p.
  rewrite elem_of_app, Hspec, list_elem_of_In, in_map_iff. split.
  - intros [(rc & <- & Hrc)|(rc & rn & Hrc & Hrn & Hin & Hrest)].
    + apply list_elem_of_In, list_elem_of_filter in Hrc as [[Hp Hn] Hrc].
      exists rc, rs. repeat (split; [done|]). split; [by left|]. done.
    + exists rc, rn. repeat (split; [done|]). split; [by right|]. done.
  - intros (rc & rn & Hrc & Hrn & Hin & Hn & Hp & ->).
    apply elem_of_cons in Hin as [Heq|Hin].
    + left. exists rc.
      rewrite (same_id_same_row df rn rs Hnd Hrn Hrs Heq) in *.
      split; [done|]. apply list_elem_of_In, list_elem_of_filter. done.
    + right. exists rc, rn. done.
Qed.

(** X14. On a sample table without repeated sample id, the pairs made are
    the pairs of a sample that is not Normal (the case) with a Normal
    sample (the control) of the same participant, all of them and no
    other; the id of a pair is the case id, a dash, the control id. *)
Theorem pair_rows_spec df :
  NoDup (map sample_id df) →
  ∃ table,
    pair_rows df = Ok table ∧
    ∀ p, p ∈ table ↔
         ∃ rc rn, rc ∈ df ∧ rn ∈ df ∧
                  sample_type rn = Some "Normal" ∧
                  sample_type rc ≠ Some "Normal" ∧
                  participant rc = participant rn ∧
                  p = PairRow (sample_id rc ++ "-" ++ sample_id rn)
                              (sample_id rc) (sample_id rn) (participant rn).
Proof.
  intros Hnd. unfold pair_rows.
  destruct (pairs_of_normals_spec df
              (map sample_id (filter (λ r, is_normal r = true) df)) Hnd)
    as (table & Htable & Hspec).
  { intros s Hs. apply list_elem_of_In, in_map_iff in Hs as (rn & <- & Hrn).
    apply list_elem_of_In, list_elem_of_filter in Hrn as [_ Hrn]. by exists rn. }
  exists table. split; [done|]. intros p. rewrite Hspec.
  split; intros (rc & rn & Hrc & Hrn & H1 & H2 & Hp & ->); exists rc, rn;
    (split; [done|]); (split; [done|]).
  - apply list_elem_of_In, in_map_iff in H1 as (rn' & Hid & Hrn').
    apply list_elem_of_In, list_elem_of_filter in Hrn' as [Hnormal Hrn'].
    rewrite (same_id_same_row df rn' rn Hnd Hrn' Hrn Hid) in *.
    unfold is_normal in *. apply bool_decide_eq_true_1 in Hnormal.
    split; [done|]. split; [|done]. by apply bool_decide_eq_false_1 in H2.
  - split.
    { apply list_elem_of_In, in_map. apply list_elem_of_In, list_elem_of_filter.
      split; [|done]. by apply bool_decide_eq_true_2. }
    split; [|done]. by apply bool_decide_eq_false_2.
Qed.

End make_pairs.

Lemma pair_rows_spec_witness :
  ∃ table,
    pair_rows four_samples = Ok table ∧
    ∀ p, p ∈ table ↔
         ∃ rc rn, rc ∈ four_samples ∧ rn ∈ four_samples ∧
                  sample_type rn = Some "Normal" ∧
                  sample_type rc ≠ Some "Normal" ∧
                  participant rc = participant rn ∧
                  p = PairRow (sample_id rc ++ "-" ++ sample_id rn)
                              (sample_id rc) (sample_id rn) (participant rn).
Proof.
  apply (pair_rows_spec four_samples).
  apply (bool_decide_unpack _). vm_compute. exact I.
Defined.

(** The pairs of the four samples: the tumor and the sample without type
    of participant P1, each with the normal of P1. *)
Example four_samples_pairs :
  pair_rows four_samples
  = Ok [PairRow "P1-T-P1-N" "P1-T" "P1-N" "P1";
        PairRow "P1-M-P1-N" "P1-M" "P1-N" "P1"].
Proof. reflexivity. Qed.

End Pairs.

(** * Entities of the workspace *)

Module Entities.

(** An entity of a result page, with its attributes, and a page of the
    paginated query; [V] is the type of the attribute values. *)
Record entity (V : Type) : Type := Entity {
  name : string;
  attributes : gmap string V;
}.
Arguments Entity {V} _ _.
Arguments name {V} _.
Arguments attributes {V} _.

Record page (V : Type) : Type := Page {
  filteredPageCount : Z;
  results : list (entity V);
}.
Arguments Page {V} _ _.
Arguments filteredPageCount {V} _.
Arguments results {V} _.

(** [range(2, total_pages+1)]. *)
Definition page_range (total_pages : Z) : list Z :=
  map Z.of_nat (seq 2 (Z.to_nat (total_pages - 1))).

(** *** A workspace with three pages of samples *)

Definition sample_pages (code : Z) (etype : string) (p page_size : Z)
  : response (page string) :=
  if (p =? 1)%Z then
    Response 200 (Page 3 [Entity "S1" {[ "bam" := "gs://bkt/S1.bam" ]}])
  else if (p =? 2)%Z then
    Response code (Page 3 [Entity "S2" {[ "bam" := "gs://bkt/S2.bam" ]}])
  else
    Response 200 (Page 3 [Entity "S1" {[ "bam" := "gs://bkt/S1.v2.bam" ]}]).

Section get_entities.

Context {V : Type}.

(** [firecloud.api.get_entities_query] on the workspace: entity type, page
    and page size. *)
Variable api_get_entities_query : string → Z → Z → response (page V).

(** [_get_entities_query], lines 811-818. *)
Definition _get_entities_query (etype : string) (p page_size : Z)
  : result (page V) :=
  let r := api_get_entities_query etype p page_size in
  _ ← py_assert (status_code r =? 200)%Z;
  Ok (json r).

(** The loop of lines 829-831. *)
Fixpoint more_pages (etype : string) (page_size : Z) (pages : list Z)
    (all_entities : list (entity V)) : result (list (entity V)) :=
  match pages with
  | [] => Ok all_entities
  | p :: rest =>
      r ← _get_entities_query etype p page_size;
      more_pages etype page_size rest (all_entities ++ results r)
  end.

(** Lines 824-831. *)
Definition all_entities (etype : string) (page_size : Z)
  : result (list (entity V)) :=
  (* get first page *)
  r ← _get_entities_query etype 1 page_size;
  (* get additional pages *)
  let total_pages := filteredPageCount r in
  more_pages etype page_size (page_range total_pages) (results r).

(** [{i['name']:i['attributes'] for i in all_entities}], the rows of the
    frame. *)
Definition entity_table (all_entities : list (entity V))
  : gmap string (gmap string V) :=
  foldl (λ d i, <[name i := attributes i]> d) ∅ all_entities.

(** [get_entities], lines 821-836. *)
Definition get_entities (etype : string) (page_size : Z)
  : result (gmap string (gmap string V)) :=
  all ← all_entities etype page_size;
  Ok (entity_table all).

(** The entities of the pages 1 to the page count that page 1 gives, in
    the order of the pages. *)
Definition listed (etype : string) (page_size : Z) : list (entity V) :=
  let first := json (api_get_entities_query etype 1 page_size) in
  (results first
   ++ flat_map (λ p, results (json (api_get_entities_query etype p page_size)))
               (page_range (filteredPageCount first)))%list.

(** ** Properties *)

Lemma elem_of_page_range total_pages p :
  p ∈ page_range total_pages ↔ (2 ≤ p ≤ total_pages)%Z.
Proof.
  unfold page_range. rewrite list_elem_of_In, in_map_iff. split.
  - intros (n & <- & Hn%in_seq). lia.
  - intros Hp. exists (Z.to_nat p). split; [lia|]. apply in_seq. lia.
Qed.

Lemma more_pages_ok etype page_size pages all :
  (∀ p, p ∈ pages →
        status_code (api_get_entities_query etype p page_size) = 200%Z) →
  more_pages etype page_size pages all
  = Ok (all ++ flat_map
                 (λ p, results (json (api_get_entities_query etype p page_size)))
                 pages)%list.
Proof.
  revert all. induction pages as [|p rest IH]; intros all Hok; cbn.
  - by rewrite app_nil_r.
  - unfold _get_entities_query. rewrite (Hok p) by by left. cbn.
    rewrite IH; [by rewrite <- app_assoc|]. intros q Hq. apply Hok. by right.
Qed.

Lemma more_pages_fails etype page_size pages all p :
  p ∈ pages →
  status_code (api_get_entities_query etype p page_size) ≠ 200%Z →
  more_pages etype page_size pages all = Raise AssertionError.
Proof.
  intros Hin Hbad. revert all.
  induction pages as [|q rest IH]; intros all; [by apply elem_of_nil in Hin|].
  cbn. unfold _get_entities_query.
  destruct (Z.eqb_spec (status_code (api_get_entities_query etype q page_size))
                       200) as [H200|H200]; cbn; [|done].
  apply elem_of_cons in Hin as [->|Hin]; [done|by apply IH].
Qed.

Lemma entity_table_lookup all n :
  entity_table all !! n
  = attributes <$> last (filter (λ e, name e = n) all).
Proof.
  unfold entity_table. induction all as [|e all IH] using rev_ind; [done|].
  rewrite foldl_app, filter_app, last_app. cbn [foldl].
  rewrite filter_cons, filter_nil.
  destruct (decide (name e = n)) as [<-|Hne].
  - by rewrite lookup_insert_eq.
  - rewrite lookup_insert_ne by done. apply IH.
Qed.

(** X15. When every page from 1 to the page count given by page 1 is
    answered with 200, [get_entities] gives a table with a row for each
    name among the entities of these pages, and the row of a name holds the
    attributes of the last entity of that name in the order of the pages;
    the page count of the later pages is not looked at. *)
Theorem get_entities_all_pages etype page_size :
  status_code (api_get_entities_query etype 1 page_size) = 200%Z →
  (∀ p, (2 ≤ p ≤ filteredPageCount
                   (json (api_get_entities_query etype 1 page_size)))%Z →
        status_code (api_get_entities_query etype p page_size) = 200%Z) →
  ∃ table,
    get_entities etype page_size = Ok table ∧
    ∀ n, table !! n
         = attributes
             <$> last (filter (λ e, name e = n) (listed etype page_size)).
Proof.
  intros H1 Hrest. unfold get_entities, all_entities, _get_entities_query.
  rewrite H1. cbn.
  rewrite more_pages_ok by (intros p Hp; by apply Hrest, elem_of_page_range).
  cbn.
  eexists. split; [done|]. intros n. apply entity_table_lookup.
Qed.

(** X16. A page that is not answered with 200, be it page 1 or a later
    page up to the page count, ends [get_entities] with an assertion
    failure: no table of the pages read so far is returned. *)
Theorem get_entities_page_failure etype page_size p :
  status_code (api_get_entities_query etype p page_size) ≠ 200%Z →
  (1 ≤ p)%Z →
  (p = 1 ∨
   p ≤ filteredPageCount (json (api_get_entities_query etype 1 page_size)))%Z →
  get_entities etype page_size = Raise AssertionError.
Proof.
  intros Hbad Hpos Hp. unfold get_entities, all_entities, _get_entities_query.
  destruct (Z.eqb_spec (status_code (api_get_entities_query etype 1 page_size))
                       200) as [H200|H200]; cbn; [|done].
  destruct (decide (p = 1%Z)) as [->|Hne]; [done|].
  rewrite (more_pages_fails _ _ _ _ p); [done| |done].
  apply elem_of_page_range. lia.
Qed.

End get_entities.

Lemma get_entities_all_pages_witness :
  ∃ table,
    get_entities (sample_pages 200) "sample" 1 = Ok table ∧
    ∀ n, table !! n
         = attributes
             <$> last (filter (λ e, name e = n)
                              (listed (sample_pages 200) "sample" 1)).
Proof.
  apply (get_entities_all_pages (sample_pages 200) "sample" 1).
  - reflexivity.
  - intros p Hp. cbn in Hp.
    destruct (decide (p = 2%Z)) as [->|?]; [reflexivity|].
    assert (p = 3%Z) as -> by lia. reflexivity.
Defined.

Lemma get_entities_page_failure_witness :
  get_entities (sample_pages 500) "sample" 1 = Raise AssertionError.
Proof.
  apply (get_entities_page_failure (sample_pages 500) "sample" 1 2).
  - discriminate.
  - lia.
  - right. cbn. lia.
Defined.

(** Sample S1 is on pages 1 and 3: its row holds the attributes of
    page 3. *)
Example sample_pages_table :
  ∃ table,
    get_entities (sample_pages 200) "sample" 1 = Ok table ∧
    table !! "S1" = Some {[ "bam" := "gs://bkt/S1.v2.bam" ]} ∧
    table !! "S2" = Some {[ "bam" := "gs://bkt/S2.bam" ]}.
Proof. eexists. split; [reflexivity|]. split; reflexivity. Qed.

End Entities.

(** * Attributes of the workspace *)

Module Attributes.

Section get_attributes.

Context {V : Type}.

(** The answer to the workspace request, with the attributes it carries. *)
Variable api_get_workspace : response (gmap string V).

(** The keys the loop of line 349 goes through. *)
Definition library_keys (attr : gmap string V) : list string :=
  filter (λ k, contains "library:" k = true) (map_to_list attr).*1.

(** [get_attributes], lines 344-351. *)
Definition get_attributes : result (gmap string V) :=
  let r := api_get_workspace in
  _ ← py_assert (status_code r =? 200)%Z;
  let attr := json r in
  Ok (foldl (λ attr k, delete k attr) attr (library_keys attr)).

(** ** Properties *)

Lemma lookup_pop_all (attr : gmap string V) (ks : list string) k :
  foldl (λ attr k, delete k attr) attr ks !! k
  = if decide (k ∈ ks) then None else attr !! k.
Proof.
  revert attr. induction ks as [|k0 ks IH]; intros attr; cbn; [done|].
  rewrite IH. destruct (decide (k ∈ ks)) as [Hin|Hin].
  - destruct (decide (k ∈ k0 :: ks)) as [|Hnot]; [done|].
    destruct Hnot. by right.
  - destruct (decide (k = k0)) as [->|Hne].
    + rewrite lookup_delete_eq.
      destruct (decide (k0 ∈ k0 :: ks)) as [|Hnot]; [done|].
      destruct Hnot. by left.
    + rewrite lookup_delete_ne by done.
      destruct (decide (k ∈ k0 :: ks)) as [[?|?]%elem_of_cons|]; done.
Qed.

(** X17. When the workspace request is answered with 200,
    [get_attributes] gives the attributes of the answer without those
    whose name has [library:] inside it, the others unchanged. *)
Theorem get_attributes_hides_library :
  status_code api_get_workspace = 200%Z →
  ∃ attr,
    get_attributes = Ok attr ∧
    ∀ k, attr !! k
         = if contains "library:" k then None
           else json api_get_workspace !! k.
Proof.
  intros H200. unfold get_attributes. rewrite H200. cbn.
  eexists. split; [done|]. intros k. rewrite lookup_pop_all.
  unfold library_keys. destruct (contains "library:" k) eqn:Hlib.
  - destruct (decide _) as [|Hnot]; [done|].
    destruct (json api_get_workspace !! k) as [v|] eqn:Hk; [|done].
    destruct Hnot. apply list_elem_of_filter. split; [done|].
    apply list_elem_of_fmap. exists (k, v). split; [done|].
    by apply elem_of_map_to_list.
  - rewrite decide_False; [done|]. intros [Hc _]%list_elem_of_filter.
    congruence.
Qed.

End get_attributes.

Lemma get_attributes_hides_library_witness :
  ∃ attr,
    get_attributes
      (Response 200 ({[ "library:datatype" := "WGS"; "genome" := "hg38" ]}
                       : gmap string string)) = Ok attr ∧
    ∀ k, attr !! k
         = if contains "library:" k then None
           else json (Response 200
                        ({[ "library:datatype" := "WGS"; "genome" := "hg38" ]}
                           : gmap string string)) !! k.
Proof.
  apply (get_attributes_hides_library
           (Response 200 ({[ "library:datatype" := "WGS"; "genome" := "hg38" ]}
                            : gmap string string))).
  reflexivity.
Defined.

End Attributes.
